(** * Shallow embedding of the note pipeline of src/unnamed/part_001

    JavaScript strings are sequences of UTF-16 code units ([jsstring]);
    [String.length], [trim], [toLowerCase] and [includes] are written out
    over them.  String literals of the source are written as Rocq UTF-8
    literals and decoded with [js].  Parsed JSON is the inductive [jvalue];
    asynchronous code that may reject is a [res] (fulfilled / thrown). *)

From Stdlib Require Import List String Ascii NArith ZArith Bool Lia.
From Stdlib Require Import DecimalNat Sorted.
Import ListNotations.
Open Scope N_scope.
Set Warnings "-register-all".

(* ------------------------------------------------------------------ *)
(** ** JavaScript strings *)

Definition jsstring := list N.

(** UTF-8 bytes to code points (well-formed input; the literals of the
    source are). *)
Fixpoint utf8_to_cps (bs : list N) : list N :=
  match bs with
  | [] => []
  | b0 :: rest =>
      if b0 <? 128 then b0 :: utf8_to_cps rest
      else if b0 <? 224 then
        match rest with
        | b1 :: r => ((b0 - 192) * 64 + (b1 - 128)) :: utf8_to_cps r
        | [] => []
        end
      else if b0 <? 240 then
        match rest with
        | b1 :: b2 :: r =>
            ((b0 - 224) * 4096 + (b1 - 128) * 64 + (b2 - 128)) :: utf8_to_cps r
        | _ => []
        end
      else
        match rest with
        | b1 :: b2 :: b3 :: r =>
            ((b0 - 240) * 262144 + (b1 - 128) * 4096 + (b2 - 128) * 64
             + (b3 - 128)) :: utf8_to_cps r
        | _ => []
        end
  end.

(** Code points to UTF-16 code units (surrogate pairs above the BMP). *)
Fixpoint cps_to_utf16 (cps : list N) : jsstring :=
  match cps with
  | [] => []
  | c :: r =>
      if c <? 65536 then c :: cps_to_utf16 r
      else (55296 + (c - 65536) / 1024) :: (56320 + (c - 65536) mod 1024)
             :: cps_to_utf16 r
  end.

(** A source string literal as a JavaScript string. *)
Definition js (s : string) : jsstring :=
  cps_to_utf16 (utf8_to_cps (map Byte.to_N (list_byte_of_string s))).

Definition jsstring_eqb (a b : jsstring) : bool :=
  if list_eq_dec N.eq_dec a b then true else false.

(** The WhiteSpace and LineTerminator code units stripped by [trim]. *)
Definition is_js_space (c : N) : bool :=
  (c =? 9) || (c =? 10) || (c =? 11) || (c =? 12) || (c =? 13) || (c =? 32)
  || (c =? 160) || (c =? 5760) || ((8192 <=? c) && (c <=? 8202))
  || (c =? 8232) || (c =? 8233) || (c =? 8239) || (c =? 8287)
  || (c =? 12288) || (c =? 65279).

Fixpoint trim_start (s : jsstring) : jsstring :=
  match s with
  | [] => []
  | c :: r => if is_js_space c then trim_start r else s
  end.

(** [String.prototype.trim] *)
Definition trim (s : jsstring) : jsstring := rev (trim_start (rev (trim_start s))).

(** [String.prototype.toLowerCase] on the ASCII letters. *)
Definition lower_unit (c : N) : N :=
  if (65 <=? c) && (c <=? 90) then c + 32 else c.
Definition toLowerCase (s : jsstring) : jsstring := map lower_unit s.

Fixpoint prefixb (p s : jsstring) : bool :=
  match p, s with
  | [], _ => true
  | a :: p', b :: s' => (a =? b) && prefixb p' s'
  | _ :: _, [] => false
  end.

(** [String.prototype.includes] *)
Fixpoint includes (s pat : jsstring) : bool :=
  prefixb pat s || match s with [] => false | _ :: r => includes r pat end.

(** [a || b] on strings: the empty string is falsy. *)
Definition or_default (a b : jsstring) : jsstring :=
  match a with [] => b | _ => a end.

(** Global removal of a pattern, scanning left to right as a global regex
    [replace] does; [m s] is the length of the match at the head of [s]
    (0 for none).  [fuel] bounds the number of steps. *)
Fixpoint remove_matches (m : jsstring -> nat) (fuel : nat) (s : jsstring)
  : jsstring :=
  match fuel with
  | O => s
  | S fuel' =>
      match s with
      | [] => []
      | c :: r =>
          match m s with
          | O => c :: remove_matches m fuel' r
          | k => remove_matches m fuel' (skipn k s)
          end
      end
  end.

(** A match of the regex [/```json/gi] at the head. *)
Definition match_json_fence (s : jsstring) : nat :=
  match s with
  | a :: b :: c :: j :: s' :: o :: n :: _ =>
      if (a =? 96) && (b =? 96) && (c =? 96) && (lower_unit j =? 106)
         && (lower_unit s' =? 115) && (lower_unit o =? 111)
         && (lower_unit n =? 110)
      then 7%nat else 0%nat
  | _ => 0%nat
  end.

(** A match of the regex [/```/g] at the head. *)
Definition match_fence (s : jsstring) : nat :=
  match s with
  | a :: b :: c :: _ => if (a =? 96) && (b =? 96) && (c =? 96) then 3%nat else 0%nat
  | _ => 0%nat
  end.

(** [t.replace(/```json/gi, '').replace(/```/g, '').trim()] *)
Definition strip_fences (t : jsstring) : jsstring :=
  let t1 := remove_matches match_json_fence (S (List.length t)) t in
  trim (remove_matches match_fence (S (List.length t1)) t1).

(** Decimal digits of a [nat], as template interpolation prints it. *)
Fixpoint uint_digits (d : Decimal.uint) : jsstring :=
  match d with
  | Decimal.Nil => []
  | Decimal.D0 r => 48 :: uint_digits r
  | Decimal.D1 r => 49 :: uint_digits r
  | Decimal.D2 r => 50 :: uint_digits r
  | Decimal.D3 r => 51 :: uint_digits r
  | Decimal.D4 r => 52 :: uint_digits r
  | Decimal.D5 r => 53 :: uint_digits r
  | Decimal.D6 r => 54 :: uint_digits r
  | Decimal.D7 r => 55 :: uint_digits r
  | Decimal.D8 r => 56 :: uint_digits r
  | Decimal.D9 r => 57 :: uint_digits r
  end.
Definition nat_to_js (n : nat) : jsstring := uint_digits (Nat.to_uint n).

(* ------------------------------------------------------------------ *)
(** ** Results of asynchronous code: fulfilled or thrown *)

Inductive exn : Type :=
| TypeError
| SyntaxError
| Error (msg : jsstring)
| Transport (msg : jsstring)  (** a failed external call *)
| Undefined.                  (** [throw undefined] *)

Inductive res (A : Type) : Type :=
| Ok (a : A)
| Throw (e : exn).
Arguments Ok {A} a.
Arguments Throw {A} e.

Definition bind {A B} (m : res A) (k : A -> res B) : res B :=
  match m with Ok a => k a | Throw e => Throw e end.

Notation "x <- m ;; k" := (bind m (fun x => k))
  (at level 61, m at next level, right associativity).

(* ------------------------------------------------------------------ *)
(** ** JSON values as returned by [JSON.parse] *)

Inductive jvalue : Type :=
| JNull
| JBool (b : bool)
| JNum (n : Z)
| JStr (s : jsstring)
| JArr (xs : list jvalue)
| JObj (fs : list (jsstring * jvalue)).

(** Property lookup on a parsed object: a repeated key keeps its last
    value, as in [JSON.parse]; [None] is [undefined]. *)
Definition obj_get (fs : list (jsstring * jvalue)) (k : jsstring) : option jvalue :=
  fold_left (fun acc kv => if jsstring_eqb k (fst kv) then Some (snd kv) else acc)
    fs None.

(** Property assignment: an existing key keeps its place. *)
Definition obj_set (fs : list (jsstring * jvalue)) (k : jsstring) (v : jvalue)
  : list (jsstring * jvalue) :=
  if existsb (fun kv => jsstring_eqb k (fst kv)) fs
  then map (fun kv => if jsstring_eqb k (fst kv) then (k, v) else kv) fs
  else fs ++ [(k, v)].

(** [x.k]: reading a property of [null] throws. *)
Definition get_prop (x : jvalue) (k : jsstring) : res (option jvalue) :=
  match x with
  | JNull => Throw TypeError
  | JObj fs => Ok (obj_get fs k)
  | _ => Ok None
  end.

(** [x.k = v] in strict (module) code: assigning to a primitive throws.
    An array accepts the property; [jvalue] has no slot for it, and no
    caller reads it back. *)
Definition set_prop (x : jvalue) (k : jsstring) (v : jvalue) : res jvalue :=
  match x with
  | JObj fs => Ok (JObj (obj_set fs k v))
  | JArr xs => Ok (JArr xs)
  | _ => Throw TypeError
  end.

(** Own enumerable properties copied by an object spread [{...s}]. *)
Definition spread (s : jvalue) : list (jsstring * jvalue) :=
  match s with
  | JObj fs => fs
  | JStr str => map (fun '(i, c) => (nat_to_js i, JStr [c])) (combine (seq 0 (List.length str)) str)
  | JArr xs => combine (map nat_to_js (seq 0 (List.length xs))) xs
  | _ => []
  end.

(* ------------------------------------------------------------------ *)
(** ** The text-completion calls: processLeftBrain and processSplitBrain *)

Section Completion.

(** [JSON.parse]: [None] when it throws a SyntaxError. *)
Variable JSON_parse : jsstring -> option jvalue.

Definition json_parse (raw : jsstring) : res jvalue :=
  match JSON_parse raw with Some j => Ok j | None => Throw SyntaxError end.

(** [res.text?.replace(...).replace(...).trim() || dflt] where [text] is the
    (possibly undefined) [res.text] of the completion. *)
Definition clean_reply (text : option jsstring) (dflt : jsstring) : jsstring :=
  match text with
  | Some t => or_default (strip_fences t) dflt
  | None => dflt
  end.

(** [json.modules?.map((s, i) => ({ ...s, id: `m${i} ` })) || []] for the
    value [mods] of [json.modules]: [?.] stops only at null and undefined;
    on any other non-array [.map] is not a function. *)
Definition map_module_ids (mods : option jvalue) : res jvalue :=
  match mods with
  | None | Some JNull => Ok (JArr [])
  | Some (JArr ms) =>
      Ok (JArr (map (fun '(i, s) =>
                       JObj (obj_set (spread s) (js "id")
                               (JStr (js "m" ++ nat_to_js i ++ js " "))))
                  (combine (seq 0 (List.length ms)) ms)))
  | Some _ => Throw TypeError
  end.

(** The fixed outline returned from the [catch] of processLeftBrain. *)
Definition left_brain_fallback : jvalue :=
  JObj [(js "title", JStr (js "解析失败"));
        (js "summary_context", JStr (js "请重试或检查输入"));
        (js "visual_theme_keywords", JStr (js "abstract"));
        (js "modules",
          JArr [JObj [(js "id", JStr (js "err1"));
                      (js "heading", JStr (js "错误"));
                      (js "content", JStr (js "无法解析内容，请重试"))]])].

(** The [try] block of processLeftBrain; [reply] is the outcome of
    [await ai.models.generateContent(...)], its value the [text] field. *)
Definition left_brain_try (reply : res (option jsstring)) : res jvalue :=
  r <- reply ;;
  json <- json_parse (clean_reply r (js "{}")) ;;
  mods <- get_prop json (js "modules") ;;
  newmods <- map_module_ids mods ;;
  json' <- set_prop json (js "modules") newmods ;;
  match newmods with
  | JArr [] => Throw (Error (js "Empty modules"))
  | _ => Ok json'
  end.

(** processLeftBrain: every exception of the [try] block is caught and
    answered with the fallback outline. *)
Definition processLeftBrain (reply : res (option jsstring)) : res jvalue :=
  match left_brain_try reply with
  | Ok j => Ok j
  | Throw _ => Ok left_brain_fallback
  end.

(** [parts.filter((p) => typeof p === 'string' && p.trim().length >= 100)] *)
Definition valid_part (p : jvalue) : option jsstring :=
  match p with
  | JStr s => if (100 <=? List.length (trim s))%nat then Some s else None
  | _ => None
  end.

Definition validParts (ps : list jvalue) : list jsstring :=
  flat_map (fun p => match valid_part p with Some s => [s] | None => [] end) ps.

Definition split_try (reply : res (option jsstring)) (text : jsstring)
  : res (list jsstring) :=
  r <- reply ;;
  parts <- json_parse (clean_reply r (js "[]")) ;;
  match parts with
  | JArr ((_ :: _) as ps) =>
      match validParts ps with
      | [] => Ok [text]
      | vs => Ok vs
      end
  | _ => Ok [text]
  end.

(** processSplitBrain: a thrown exception yields [[text]]. *)
Definition processSplitBrain (reply : res (option jsstring)) (text : jsstring)
  : res (list jsstring) :=
  match split_try reply text with
  | Ok ps => Ok ps
  | Throw _ => Ok [text]
  end.

End Completion.

(* ------------------------------------------------------------------ *)
(** ** processRightBrain (PromptSynthesizer) *)

(** [ContentModule] of types.ts; [id] is named [cm_id] here, [id] being the
    field of [NoteUnit].  A field that is absent at run time is [None]. *)
Record ContentModule := {
  cm_id : option jsstring;
  heading : option jsstring;
  content : option jsstring
}.

Record LeftBrainData := {
  title : option jsstring;
  summary_context : option jsstring;
  visual_theme_keywords : option jsstring;
  modules : option (list (option ContentModule))
}.

Record VisualSettings := {
  styleId : jsstring;
  colorTheme : jsstring;
  watermark : jsstring
}.

Record Style := {
  style_id : jsstring;
  name : jsstring;
  emoji : jsstring;
  desc : jsstring
}.

Definition STYLES : list Style :=
  [{| style_id := js "healing"; name := js "可爱手帐 (Cute Journal)"; emoji := js "📒";
      desc := js "Hand-drawn grid paper background, pastel markers, dense text notes, cute stickers, kawaii aesthetic, study note style" |};
   {| style_id := js "tech"; name := js "极客蓝图 (Tech Blueprint)"; emoji := js "📟";
      desc := js "Dark blue blueprint background, neon cyan lines, dense data visualization, holographic UI elements, futuristic technical schematic" |};
   {| style_id := js "retro"; name := js "复古海报 (Retro Poster)"; emoji := js "📰";
      desc := js "Vintage paper texture, bold typography, densely packed layout, pop art halftone patterns, collage style, infographic poster" |};
   {| style_id := js "zen"; name := js "新中式 (Zen Ink)"; emoji := js "🎋";
      desc := js "White rice paper texture, minimalist ink wash painting, black calligraphy, vertical layout, red seal, intellectual aesthetic" |};
   {| style_id := js "clay"; name := js "3D粘土 (3D Clay)"; emoji := js "🧸";
      desc := js "3D rendered claymorphism, plasticine texture, soft lighting, rounded edges, playful toy-like look, flat text labels on clay surfaces" |}].

(** The double quote character. *)
Definition q : jsstring := [34].

(** [x || dflt] on a possibly absent string. *)
Definition opt_or (x : option jsstring) (dflt : jsstring) : jsstring :=
  match x with Some s => or_default s dflt | None => dflt end.

(** [Array.prototype.join] *)
Fixpoint join (sep : jsstring) (l : list jsstring) : jsstring :=
  match l with
  | [] => []
  | [x] => x
  | x :: r => x ++ sep ++ join sep r
  end.

(** [`${i + 1}. Heading: "${m?.heading || ''}"\n   Content: "${m?.content || ''}"`] *)
Definition render_module (i : nat) (m : option ContentModule) : jsstring :=
  let h := match m with Some c => opt_or (heading c) [] | None => [] end in
  let c := match m with Some c => opt_or (content c) [] | None => [] end in
  nat_to_js (S i) ++ js ". Heading: " ++ q ++ h ++ q ++ [10]
  ++ js "   Content: " ++ q ++ c ++ q.

(** [modules.map(...).join('\n')] *)
Definition render_modules (ms : list (option ContentModule)) : jsstring :=
  join [10] (map (fun '(i, m) => render_module i m) (combine (seq 0 (List.length ms)) ms)).

(** The template literal of processRightBrain, before [.trim()]. *)
Definition right_brain_template (styleObj : Style) (settings : VisualSettings)
  (title summary keywords : jsstring) (modules : list (option ContentModule))
  : jsstring :=
  js "
Role: You are an expert Information Designer specializing in high - clarity educational sketchnotes.Your goal is to visualize complex information into a clean, organized, and readable "
  ++ q
  ++ js "Visual Note"
  ++ q
  ++ js ".

# VISUAL STYLE: [User Selection: "
  ++ name styleObj
  ++ js "]
  - Core Aesthetic: "
  ++ desc styleObj
  ++ js ". Flat Vector Illustration style.Clean lines, high resolution, no blurring.
- Background: Light beige(#F5F5DC) or style - appropriate light background with a faint dot grid pattern.CLEAN background, no heavy textures that interfere with text.
- Color Palette: "
  ++ or_default (colorTheme settings)
      (js "Pastel low-saturation colors (Macaron Blue, Cream Yellow, Soft Pink)")
  ++ js " + Dark Charcoal(#333333) for all text.
- Decorations: Simple 2D icons(flat style), subtle doodles related to "
  ++ q
  ++ keywords
  ++ q
  ++ js " scattered * around * text boxes, not * behind * text.

# CRITICAL TEXT RENDERING RULES(Priority Level: MAX)
1. Font Strategy(The Success Secret): Use a font style resembling "
  ++ q
  ++ js "Bold Sans-serif"
  ++ q
  ++ js " or "
  ++ q
  ++ js "Clean Handwriting"
  ++ q
  ++ js "(like 楷体 / Heiti).Absolutely NO cursive, calligraphy, or messy strokes.Characters must be blocky and distinct.
2. Text Container Strategy: All main text blocks MUST be placed inside ** Solid Color Text Bubbles or Rectangular Boxes ** (White or very light pastel fill) to ensure maximum contrast against the background dots.
3. Clarity Over Style: Legibility is the #1 priority.Text characters must be sharp, high - contrast, and fully formed.
4. Language: Simplified Chinese(简体中文).Check for correct stroke counts.NO Japanese Kana.
5. Hierarchy(Relative Sizes):
- Title: Very large, decorative, centered at top.
    - Headers(1., 2., ...): Large, bold.
    - Body Text: Medium size, clear bullet points.

# LAYOUT & COMPOSITION
  - Grid System: Use a modular layout(like a bento box).Divide the canvas into 5 clear, non - overlapping sections for the main points, plus a title area and footer.
- Flow: Use cute, hand - drawn dotted arrows to guide the eye from section 1 to 5 logically.

# OUTPUT SPECS
  - Ratio: 3: 4(Vertical Long Chart)
    - Resolution: High Definition(Vector - like sharpness)

# VISUALIZATION CONTENT(Render exactly as structured below):
Title: "
  ++ q
  ++ title
  ++ q
  ++ js "
Subtitle: "
  ++ q
  ++ summary
  ++ q
  ++ js "
Modules:
"
  ++ render_modules modules
  ++ js "

Footer Watermark: "
  ++ q
  ++ watermark settings
  ++ q
  ++ js "
  ".

(** [STYLES.find(s => s.id === settings.styleId) || STYLES[0]] *)
Definition find_style (sid : jsstring) : Style :=
  match find (fun s => jsstring_eqb (style_id s) sid) STYLES with
  | Some s => s
  | None => hd (Build_Style [] [] [] []) STYLES
  end.

(** processRightBrain; [data] is [None] when it is null or undefined. *)
Definition processRightBrain (data : option LeftBrainData) (settings : VisualSettings)
  : jsstring :=
  match data with
  | None => js "Error: No data provided"
  | Some d =>
      let styleObj := find_style (styleId settings) in
      let title := opt_or (title d) (js "未命名笔记") in
      let summary := opt_or (summary_context d) [] in
      let keywords := opt_or (visual_theme_keywords d) (js "abstract concepts") in
      let modules := match modules d with Some ms => ms | None => [] end in
      trim (right_brain_template styleObj settings title summary keywords modules)
  end.

(* ------------------------------------------------------------------ *)
(** ** NoteUnit store *)

(** [Stage]: the values used by the batch code of part_001 (the copy of
    types.ts under src/ predates [Splitting], [ReviewSplit] and
    [BatchProcessing]). *)
Inductive Stage :=
| Input | Organizing | ReviewStructure | Designing | ReviewPrompt | Painting
| Done | Splitting | ReviewSplit | BatchProcessing.

Record NoteUnit := {
  id : jsstring;
  order : nat;
  originalText : jsstring;
  stage : Stage;
  isProcessing : bool;
  structure : option jvalue;
  generatedPrompt : option jsstring;
  finalImage : option jsstring;
  error : option jsstring
}.

(** [Partial<NoteUnit>] as the batch code builds it: [Some v] sets a field. *)
Record Patch := {
  p_stage : option Stage;
  p_isProcessing : option bool;
  p_structure : option jvalue;
  p_generatedPrompt : option jsstring;
  p_finalImage : option jsstring;
  p_error : option jsstring
}.

Definition no_patch : Patch := Build_Patch None None None None None None.

Definition override {A} (o : option A) (a : A) : A :=
  match o with Some v => v | None => a end.
Definition override_opt {A} (o : option A) (a : option A) : option A :=
  match o with Some v => Some v | None => a end.

(** [{ ...n, ...updates }] *)
Definition apply_patch (n : NoteUnit) (p : Patch) : NoteUnit :=
  {| id := id n;
     order := order n;
     originalText := originalText n;
     stage := override (p_stage p) (stage n);
     isProcessing := override (p_isProcessing p) (isProcessing n);
     structure := override_opt (p_structure p) (structure n);
     generatedPrompt := override_opt (p_generatedPrompt p) (generatedPrompt n);
     finalImage := override_opt (p_finalImage p) (finalImage n);
     error := override_opt (p_error p) (error n) |}.

(** updateNote: [setNotes(prev => prev.map(n => n.id === id ? { ...n, ...updates } : n))];
    the functional [setNotes] makes each call one atomic step on the store. *)
Definition updateNote (k : jsstring) (updates : Patch) (notes : list NoteUnit)
  : list NoteUnit :=
  map (fun n => if jsstring_eqb (id n) k then apply_patch n updates else n) notes.

(** One call of updateNote, and a sequence of them applied in order. *)
Definition update := (jsstring * Patch)%type.

Definition apply_updates (notes : list NoteUnit) (us : list update) : list NoteUnit :=
  fold_left (fun ns u => updateNote (fst u) (snd u) ns) us notes.

(** A single note's record after the patches of a list, in order. *)
Definition apply_patches (n : NoteUnit) (us : list update) : NoteUnit :=
  fold_left (fun m u => apply_patch m (snd u)) us n.

(** The new notes of handleSplit: [parts.map((text, i) => ({ id: uuidv4(),
    order: i + 1, originalText: text, stage: Stage.Organizing,
    isProcessing: false }))]; [uids] are the identifiers uuidv4 returns. *)
Fixpoint new_notes (i : nat) (uids : list jsstring) (parts : list jsstring)
  : list NoteUnit :=
  match parts with
  | [] => []
  | text :: rest =>
      {| id := hd [] uids; order := S i; originalText := text;
         stage := Organizing; isProcessing := false; structure := None;
         generatedPrompt := None; finalImage := None; error := None |}
      :: new_notes (S i) (tl uids) rest
  end.

Definition handleSplit_notes (uids : list jsstring) (parts : list jsstring) : list NoteUnit :=
  new_notes 0 uids parts.

(** processNoteStructure of handleBatchOrganize: the updateNote calls it
    makes, given the outcome of its processLeftBrain call. *)
Definition processNoteStructure (note : NoteUnit) (lb : res jvalue) : list update :=
  (id note, {| p_stage := None; p_isProcessing := Some true; p_structure := None;
               p_generatedPrompt := None; p_finalImage := None; p_error := None |})
  :: match lb with
     | Ok r =>
         [(id note, {| p_stage := Some ReviewStructure; p_isProcessing := Some false;
                       p_structure := Some r; p_generatedPrompt := None;
                       p_finalImage := None; p_error := None |})]
     | Throw _ =>
         [(id note, {| p_stage := None; p_isProcessing := Some false;
                       p_structure := None; p_generatedPrompt := None;
                       p_finalImage := None; p_error := Some (js "结构整理失败") |})]
     end.

(** paintNote of handleBatchPaint, given the outcome of its processHand call;
    [if (!note.generatedPrompt) return;] skips an absent or empty prompt. *)
Definition paintNote (note : NoteUnit) (img : res jsstring) : list update :=
  match generatedPrompt note with
  | None | Some [] => []
  | Some _ =>
      (id note, {| p_stage := None; p_isProcessing := Some true; p_structure := None;
                   p_generatedPrompt := None; p_finalImage := None; p_error := None |})
      :: match img with
         | Ok uri =>
             [(id note, {| p_stage := Some Done; p_isProcessing := Some false;
                           p_structure := None; p_generatedPrompt := None;
                           p_finalImage := Some uri; p_error := None |})]
         | Throw _ =>
             [(id note, {| p_stage := None; p_isProcessing := Some false;
                           p_structure := None; p_generatedPrompt := None;
                           p_finalImage := None; p_error := Some (js "绘制失败") |})]
         end
  end.

(** The tasks of one wave run concurrently on the single JavaScript thread:
    the store sees some interleaving of their updateNote calls, each task's
    own calls in program order. *)
Inductive interleave {A : Type} : list (list A) -> list A -> Prop :=
| il_done : forall ls, Forall (fun l => l = []) ls -> interleave ls []
| il_pick : forall pre u rest post tr,
    interleave (pre ++ rest :: post) tr ->
    interleave (pre ++ (u :: rest) :: post) (u :: tr).

(** [Promise.all(ts)] on the store: some interleaving of the tasks' updates. *)
Definition wave (store : list NoteUnit) (tasks : list (list update))
  (store' : list NoteUnit) : Prop :=
  exists tr, interleave tasks tr /\ store' = apply_updates store tr.

(* ------------------------------------------------------------------ *)
(** ** Chunking of handleBatchPaint *)

(** [arr.slice(s, e)] for [s <= e] *)
Definition slice {A} (arr : list A) (s e : nat) : list A := firstn (e - s) (skipn s arr).

(** [Math.ceil(n / size)] for [size > 0] *)
Definition ceil_div (n size : nat) : nat := (n + size - 1) / size.

(** [Array.from({ length: Math.ceil(arr.length / size) }, (v, i) =>
      arr.slice(i * size, i * size + size))] *)
Definition chunk {A} (arr : list A) (size : nat) : list (list A) :=
  map (fun i => slice arr (i * size) (i * size + size))
    (seq 0 (ceil_div (List.length arr) size)).

(** [for (const c of chunks) await Promise.all(c.map(n => paintNote(n)))]:
    the waves run one after another, [hand] giving each processHand outcome. *)
Inductive paint_chunks (hand : NoteUnit -> res jsstring)
  : list NoteUnit -> list (list NoteUnit) -> list NoteUnit -> Prop :=
| pc_nil : forall store, paint_chunks hand store [] store
| pc_cons : forall store c cs mid store',
    wave store (map (fun n => paintNote n (hand n)) c) mid ->
    paint_chunks hand mid cs store' ->
    paint_chunks hand store (c :: cs) store'.

(** The painting phase of handleBatchPaint on the notes [notes]. *)
Definition handleBatchPaint (hand : NoteUnit -> res jsstring) (notes : list NoteUnit)
  (store' : list NoteUnit) : Prop :=
  paint_chunks hand notes (chunk notes 3) store'.

(** The number of processHand calls a wave has in flight: one per unit that
    passes the [generatedPrompt] guard of paintNote. *)
Definition calls_in_flight (c : list NoteUnit) : nat :=
  List.length (filter (fun n => match generatedPrompt n with
                                | None | Some [] => false
                                | Some _ => true end) c).

(* ------------------------------------------------------------------ *)
(** ** processHand (ImageRenderer) *)

(** [part.inlineData] of a response part. *)
Record InlineData := {
  inl_data : option jsstring;
  inl_mimeType : option jsstring
}.

(** [response?.candidates], each candidate as [cand?.content?.parts];
    [None] is undefined. *)
Definition InlineResponse := option (list (option (list (option InlineData)))).

(** One entry of [json.predictions]. *)
Record Prediction := {
  bytesBase64Encoded : option jsstring;
  base64Data : option jsstring;
  pred_data : option jsstring;
  pred_mimeType : option jsstring
}.

(** The response of [fetch] in fetchImagen: [res.ok], [res.status],
    [await res.text()] and [await res.json()] (the latter as
    [json?.predictions], rejecting on a body that is not JSON). *)
Record HttpResponse := {
  ok : bool;
  status : nat;
  body_text : jsstring;
  body_predictions : res (option (list Prediction))
}.

(** The environment of processHand: [process.env.IMAGE_MODEL],
    [process.env.API_KEY], and the outcome of the external call made by
    attempt [i] (0-based) on either backend. *)
Record ImageEnv := {
  env_IMAGE_MODEL : option jsstring;
  env_API_KEY : option jsstring;
  generateContent : nat -> res InlineResponse;
  fetch_predict : nat -> res HttpResponse
}.

(** [process.env.IMAGE_MODEL || 'gemini-3-pro-image-preview'] *)
Definition IMAGE_MODEL (env : ImageEnv) : jsstring :=
  opt_or (env_IMAGE_MODEL env) (js "gemini-3-pro-image-preview").

(** A truthy string. *)
Definition truthy (x : option jsstring) : option jsstring :=
  match x with Some ((_ :: _) as s) => Some s | _ => None end.

Fixpoint first_some {A B} (f : A -> option B) (l : list A) : option B :=
  match l with
  | [] => None
  | a :: r => match f a with Some b => Some b | None => first_some f r end
  end.

(** extractInlineImage: the first part whose [inlineData.data] is truthy,
    as [(data, mimeType || 'image/png')]. *)
Definition extractInlineImage (response : InlineResponse) : option (jsstring * jsstring) :=
  first_some
    (fun cand =>
       first_some
         (fun part =>
            match part with
            | Some d =>
                match truthy (inl_data d) with
                | Some data => Some (data, opt_or (inl_mimeType d) (js "image/png"))
                | None => None
                end
            | None => None
            end)
         (match cand with Some ps => ps | None => [] end))
    (match response with Some cs => cs | None => [] end).

(** [`data:${mimeType};base64,${data}`] *)
Definition data_uri (mimeType data : jsstring) : jsstring :=
  js "data:" ++ mimeType ++ js ";base64," ++ data.

(** fetchImagen, for attempt [i]. *)
Definition fetchImagen (env : ImageEnv) (i : nat) : res jsstring :=
  match truthy (env_API_KEY env) with
  | None => Throw (Error (js "Missing API_KEY for Imagen request"))
  | Some _ =>
      r <- fetch_predict env i ;;
      if negb (ok r)
      then Throw (Error (js "Imagen HTTP " ++ nat_to_js (status r) ++ js ": " ++ body_text r))
      else
        preds <- body_predictions r ;;
        let img := match preds with Some (p :: _) => Some p | _ => None end in
        let data := match img with
                    | Some p =>
                        match truthy (bytesBase64Encoded p) with
                        | Some d => Some d
                        | None => match truthy (base64Data p) with
                                  | Some d => Some d
                                  | None => truthy (pred_data p)
                                  end
                        end
                    | None => None
                    end in
        let mimeType := match img with
                        | Some p => opt_or (pred_mimeType p) (js "image/png")
                        | None => js "image/png"
                        end in
        match data with
        | None => Throw (Error (js "Imagen response missing image data"))
        | Some d => Ok (data_uri mimeType d)
        end
  end.

(** What processHand does, as observed from outside: which backend an
    attempt takes, and the [setTimeout] waits. *)
Inductive hand_event :=
| InlinePath (i : nat)     (** [ai.models.generateContent] on attempt [i] *)
| PredictPath (i : nat)    (** fetchImagen on attempt [i] *)
| Sleep (ms : nat).        (** [await new Promise(r => setTimeout(r, ms))] *)

(** The body of the [try] in the loop, for attempt [i]. *)
Definition hand_attempt (env : ImageEnv) (i : nat) : hand_event * res jsstring :=
  if includes (toLowerCase (IMAGE_MODEL env)) (js "gemini") then
    (InlinePath i,
      resp <- generateContent env i ;;
      match extractInlineImage resp with
      | None => Throw (Error (js "No inline image returned"))
      | Some (data, mimeType) => Ok (data_uri mimeType data)
      end)
  else (PredictPath i, fetchImagen env i).

Definition maxRetries : nat := 3.

(** [for (let i = 0; i < maxRetries; i++) { try { ... return dataUri; }
     catch (e) { lastError = e; await sleep(1000 * (i + 1)); } }
     throw lastError;] with [i] counting up from [i0] and [n] rounds left. *)
Fixpoint hand_loop (env : ImageEnv) (i n : nat) (lastError : exn)
  : list hand_event * res jsstring :=
  match n with
  | O => ([], Throw lastError)
  | S n' =>
      let (ev, r) := hand_attempt env i in
      match r with
      | Ok dataUri => ([ev], Ok dataUri)
      | Throw e =>
          let (evs, r') := hand_loop env (S i) n' e in
          (ev :: Sleep (1000 * (i + 1)) :: evs, r')
      end
  end.

(** processHand; the prompt and style only shape the request text, which
    the replies in [env] stand for. *)
Definition processHand (env : ImageEnv) : list hand_event * res jsstring :=
  hand_loop env 0 maxRetries Undefined.

Definition sleeps (evs : list hand_event) : list nat :=
  flat_map (fun ev => match ev with Sleep ms => [ms] | _ => [] end) evs.

Definition attempts (evs : list hand_event) : nat :=
  List.length (filter (fun ev => match ev with Sleep _ => false | _ => true end) evs).

(* ------------------------------------------------------------------ *)
(** ** Outcome of one unit in a wave *)

(** The record of a unit whose call failed: only [isProcessing] and
    [error] differ from [n]. *)
Definition mark_failed (n : NoteUnit) (msg : jsstring) : NoteUnit :=
  {| id := id n; order := order n; originalText := originalText n;
     stage := stage n; isProcessing := false; structure := structure n;
     generatedPrompt := generatedPrompt n; finalImage := finalImage n;
     error := Some msg |}.

Definition organized (n : NoteUnit) (s : jvalue) : NoteUnit :=
  {| id := id n; order := order n; originalText := originalText n;
     stage := ReviewStructure; isProcessing := false; structure := Some s;
     generatedPrompt := generatedPrompt n; finalImage := finalImage n;
     error := error n |}.

Definition painted (n : NoteUnit) (uri : jsstring) : NoteUnit :=
  {| id := id n; order := order n; originalText := originalText n;
     stage := Done; isProcessing := false; structure := structure n;
     generatedPrompt := generatedPrompt n; finalImage := Some uri;
     error := error n |}.

(** The record a unit [n] of the structuring wave ends with, given the
    outcome [r] of its own processLeftBrain call. *)
Definition organize_outcome (n : NoteUnit) (r : res jvalue) : NoteUnit :=
  match r with
  | Ok s => organized n s
  | Throw _ => mark_failed n (js "结构整理失败")
  end.

(** The record a unit [n] of the rendering wave ends with, given the note
    [w] paintNote was called on and the outcome [r] of its processHand call. *)
Definition paint_outcome (n w : NoteUnit) (r : res jsstring) : NoteUnit :=
  match generatedPrompt w with
  | None | Some [] => n
  | Some _ =>
      match r with
      | Ok uri => painted n uri
      | Throw _ => mark_failed n (js "绘制失败")
      end
  end.

(** The wave member with the id of [n], if any. *)
Definition wave_member (wave : list NoteUnit) (n : NoteUnit) : option NoteUnit :=
  find (fun w => jsstring_eqb (id w) (id n)) wave.

(* ------------------------------------------------------------------ *)
(** ** Sample data for concrete runs *)

Definition sample_note (k prompt : jsstring) : NoteUnit :=
  {| id := k; order := 1; originalText := js "text"; stage := ReviewPrompt;
     isProcessing := false; structure := None; generatedPrompt := Some prompt;
     finalImage := None; error := None |}.

Definition sample_store : list NoteUnit :=
  [sample_note (js "a") (js "prompt a"); sample_note (js "b") (js "prompt b")].

(** Unit "a" fails with a transport error, unit "b" succeeds. *)
Definition sample_hand (n : NoteUnit) : res jsstring :=
  if jsstring_eqb (id n) (js "a") then Throw (Transport (js "timeout"))
  else Ok (js "data:image/png;base64,AAAA").

(** Four updates, the two tasks' calls alternating as a real run may. *)
Definition alternate (a b : list update) : list update :=
  match a, b with
  | [a1; a2], [b1; b2] => [a1; b1; b2; a2]
  | _, _ => a ++ b
  end.

(** A deployment whose model id has no "gemini" and no API key: every
    attempt takes the prediction-list path and fails. *)
Definition sample_env_no_key : ImageEnv :=
  {| env_IMAGE_MODEL := Some (js "imagen-3.0-generate-002");
     env_API_KEY := None;
     generateContent := fun _ => Throw (Transport (js "unreachable"));
     fetch_predict := fun _ => Throw (Transport (js "unreachable")) |}.

(** The outline with every absent or empty field replaced by the default
    processRightBrain substitutes for it. *)
Definition with_defaults (d : LeftBrainData) : LeftBrainData :=
  {| title := Some (opt_or (title d) (js "未命名笔记"));
     summary_context := Some (opt_or (summary_context d) []);
     visual_theme_keywords := Some (opt_or (visual_theme_keywords d) (js "abstract concepts"));
     modules := Some (match modules d with Some ms => ms | None => [] end) |}.

(** An outline with a title and no other field. *)
Definition sample_outline : LeftBrainData :=
  {| title := Some (js "光合作用"); summary_context := None;
     visual_theme_keywords := Some []; modules := None |}.

(** A task whose updateNote calls all name the id of its own unit. *)
Definition own_task (t : NoteUnit -> list update) : Prop :=
  forall w, Forall (fun u => fst u = id w) (t w).

(* ------------------------------------------------------------------ *)
(** ** The request text of processHand *)

(** getStyleInstructions: [switch (id)], the [healing] case sharing the
    [default] branch. *)
Definition getStyleInstructions (id : jsstring) : jsstring :=
  if jsstring_eqb id (js "tech") then js "
            - TECH BLUEPRINT: geometric shapes, straight neon cyan lines, dark blue background, circuit motifs, monospaced label style.
            - Add grid overlays and holographic UI hints; crisp thin strokes; keep text high-contrast.
          "
  else if jsstring_eqb id (js "retro") then js "
            - RETRO POSTER: bold blocky layout, halftone texture, vibrant red/yellow/blue with aged paper feel, collage starbursts.
            - Use impactful headline typography and chunky separators; keep text clear.
          "
  else if jsstring_eqb id (js "zen") then js "
            - ZEN INK: rice paper white/cream background, ink wash strokes, sparse bamboo or red seal accents, calligraphic headings.
            - Minimal composition with generous whitespace and crisp black text.
          "
  else if jsstring_eqb id (js "clay") then js "
            - 3D CLAY: soft pastel claymorphism, rounded blobs, gentle gradients and shadows, toy-like icons.
            - Text on flat labels with clear sans-serif; avoid noisy details.
          "
  else js "
            - CUTE JOURNAL: pastel palette, rounded note boxes, dotted arrows, small doodles (stars/hearts), subtle cream grid background.
            - Clean sans-serif handwriting style, high readability.
          ".

(** The template literal [imagePrompt] of processHand. *)
Definition imagePrompt (prompt styleId : jsstring) : jsstring :=
  js "
    " ++ prompt ++ js "

    # Visual Intent
    - Render as a finished 3:4 vertical visual note (no code, no SVG).
    - Ensure all Chinese text is fully legible, sharp, high-contrast inside light text boxes.
    - Bento-like layout with title at top, 5 clear sections, footer watermark.
    - Flow arrows or connectors should be neat and not occlude text.

    # Style Guide
    "
  ++ getStyleInstructions styleId ++ js "

    # Output
    - Photo-real or illustration accepted, but keep it flat/clean (no blur).
    - Resolution: high quality PNG suitable for download and display.
  ".

(* ------------------------------------------------------------------ *)
(** ** handleBatchDesign *)

(** Truthiness of a parsed value: [null], [false], [0] and [""] are falsy. *)
Definition jtruthy (v : jvalue) : bool :=
  match v with
  | JNull => false
  | JBool b => b
  | JNum n => negb (n =? 0)%Z
  | JStr s => match s with [] => false | _ => true end
  | JArr _ | JObj _ => true
  end.

(** [!!note.structure] *)
Definition structure_truthy (o : option jvalue) : bool :=
  match o with Some v => jtruthy v | None => false end.

(** designNote of handleBatchDesign: [if (!note.structure) return;], the
    synchronous [updateNote(note.id, { isProcessing: true })], then the
    timer callback, given the outcome [synth] of its
    [processRightBrain(note.structure!, visualSettings)] call; an exception
    there ends the callback before its updateNote. *)
Definition designNote (note : NoteUnit) (synth : res jsstring) : list update :=
  if negb (structure_truthy (structure note)) then []
  else
    (id note, {| p_stage := None; p_isProcessing := Some true; p_structure := None;
                 p_generatedPrompt := None; p_finalImage := None; p_error := None |})
    :: match synth with
       | Ok prompt =>
           [(id note, {| p_stage := Some ReviewPrompt; p_isProcessing := Some false;
                         p_structure := None; p_generatedPrompt := Some prompt;
                         p_finalImage := None; p_error := None |})]
       | Throw _ => []
       end.

(** The record a note [n] ends with after designNote ran on [w], given the
    outcome [r] of its processRightBrain call. *)
Definition design_outcome (n w : NoteUnit) (r : res jsstring) : NoteUnit :=
  if negb (structure_truthy (structure w)) then n
  else
    match r with
    | Ok prompt =>
        {| id := id n; order := order n; originalText := originalText n;
           stage := ReviewPrompt; isProcessing := false; structure := structure n;
           generatedPrompt := Some prompt; finalImage := finalImage n;
           error := error n |}
    | Throw _ =>
        {| id := id n; order := order n; originalText := originalText n;
           stage := stage n; isProcessing := true; structure := structure n;
           generatedPrompt := generatedPrompt n; finalImage := finalImage n;
           error := error n |}
    end.

(* ------------------------------------------------------------------ *)
(** ** handleBatchDownload *)

(** The file name of the download of the unit at [index]. *)
Definition download_name (index : nat) : jsstring :=
  js "soulnote_batch_" ++ nat_to_js (index + 1) ++ js ".png".

(** [notes.forEach((note, index) => { if (note.finalImage) setTimeout(() =>
    { link.href = note.finalImage!; link.download =
    `soulnote_batch_${index + 1}.png`; ... }, index * 500); })]: the
    downloads scheduled, as (delay in ms, href, file name), from position
    [index] on. *)
Fixpoint download_schedule (index : nat) (notes : list NoteUnit)
  : list (nat * jsstring * jsstring) :=
  match notes with
  | [] => []
  | note :: rest =>
      match truthy (finalImage note) with
      | Some img =>
          [(index * 500, img,
            js "soulnote_batch_" ++ nat_to_js (index + 1) ++ js ".png")]
      | None => []
      end ++ download_schedule (S index) rest
  end%nat.

Definition handleBatchDownload (notes : list NoteUnit) : list (nat * jsstring * jsstring) :=
  download_schedule 0 notes.

(* ------------------------------------------------------------------ *)
(** ** handleSplit and handleOrganize *)

(** The user message of handleSplit:
    [inputText.substring(0, 100) + (inputText.length > 100 ? '...' : '')]. *)
Definition split_preview (inputText : jsstring) : jsstring :=
  firstn 100 inputText
  ++ (if (100 <? List.length inputText)%nat then js "..." else []).

(** The part of the App state handleOrganize writes. *)
Record AppState := {
  app_rawText : jsstring;
  app_notes : list NoteUnit;
  app_stage : Stage
}.

(** handleOrganize: [hasKey] is the answer of checkApiKey, [getAI] the
    outcome of [getAI()], [reply] the outcome of the completion call and
    [uid] what uuidv4 returns for the note. *)
Definition handleOrganize (JSON_parse : jsstring -> option jvalue) (hasKey : bool)
  (getAI : res unit) (uid : jsstring) (reply : res (option jsstring)) (st : AppState)
  : AppState :=
  match trim (app_rawText st) with
  | [] => st
  | inputText =>
      if negb hasKey then st
      else
        match (_ <- getAI ;; processLeftBrain JSON_parse reply) with
        | Ok r =>
            {| app_rawText := [];
               app_notes :=
                 [{| id := uid; order := 1; originalText := inputText;
                     stage := ReviewStructure; isProcessing := false;
                     structure := Some r; generatedPrompt := None;
                     finalImage := None; error := None |}];
               app_stage := ReviewStructure |}
        | Throw _ =>
            {| app_rawText := []; app_notes := app_notes st; app_stage := Input |}
        end
  end.

(* ------------------------------------------------------------------ *)
(** ** The process log of the chat stream *)

Inductive StepStatus := Pending | Running | Completed | StepError.

Definition is_completed (s : option StepStatus) : bool :=
  match s with Some Completed => true | _ => false end.

Record ProcessStep := {
  ps_id : option jsstring;
  ps_label : option jsstring;
  ps_status : option StepStatus;
  ps_detail : option jsstring
}.

(** [{ ...s, status }]; spreading [undefined] copies nothing. *)
Definition with_status (s : option ProcessStep) (st : StepStatus) : ProcessStep :=
  match s with
  | Some p => {| ps_id := ps_id p; ps_label := ps_label p; ps_status := Some st;
                 ps_detail := ps_detail p |}
  | None => {| ps_id := None; ps_label := None; ps_status := Some st; ps_detail := None |}
  end.

(** [ChatItem]; an array element that is [undefined] is [None]. *)
Record ChatItem := {
  ci_id : jsstring;
  ci_type : jsstring;
  ci_role : option jsstring;
  ci_content : option jsstring;
  ci_timestamp : option Z;
  ci_steps : option (list (option ProcessStep));
  ci_componentType : option jsstring;
  ci_data : option jvalue
}.

(** [{ ...item, steps }] *)
Definition set_steps (item : ChatItem) (steps : list (option ProcessStep)) : ChatItem :=
  {| ci_id := ci_id item; ci_type := ci_type item; ci_role := ci_role item;
     ci_content := ci_content item; ci_timestamp := ci_timestamp item;
     ci_steps := Some steps; ci_componentType := ci_componentType item;
     ci_data := ci_data item |}.

(** [steps.every(s => s.status === 'completed')]: reading [status] of an
    [undefined] element throws. *)
Fixpoint every_completed (steps : list (option ProcessStep)) : res bool :=
  match steps with
  | [] => Ok true
  | None :: _ => Throw TypeError
  | Some s :: r => if is_completed (ps_status s) then every_completed r else Ok false
  end.

(** [item.steps[k]] *)
Definition step_at (steps : list (option ProcessStep)) (k : nat) : option ProcessStep :=
  match nth_error steps k with Some s => s | None => None end.

(** The item update of the progress timer of handleOrganize and handleSplit. *)
Definition progress_item (processId : jsstring) (item : ChatItem) : res ChatItem :=
  if jsstring_eqb (ci_id item) processId then
    match ci_steps item with
    | Some steps =>
        done <- every_completed steps ;;
        if done then Ok item
        else Ok (set_steps item
                   [Some (with_status (step_at steps 0) Completed);
                    Some (with_status (step_at steps 1) Running);
                    step_at steps 2])
    | None => Ok item
    end
  else Ok item.

Fixpoint map_res {A B} (f : A -> res B) (l : list A) : res (list B) :=
  match l with
  | [] => Ok []
  | a :: r => b <- f a ;; bs <- map_res f r ;; Ok (b :: bs)
  end.

(** [setChatHistory(prev => prev.map(item => ...))] of the progress timer. *)
Definition progress_tick (processId : jsstring) (h : list ChatItem) : res (list ChatItem) :=
  map_res (progress_item processId) h.

(** The item update that marks every step completed once the call returned. *)
Definition complete_item (processId : jsstring) (item : ChatItem) : ChatItem :=
  if jsstring_eqb (ci_id item) processId then
    match ci_steps item with
    | Some steps => set_steps item (map (fun s => Some (with_status s Completed)) steps)
    | None => item
    end
  else item.

Definition complete_log (processId : jsstring) (h : list ChatItem) : list ChatItem :=
  map (complete_item processId) h.

(* ------------------------------------------------------------------ *)
(** ** FlowCanvas: the focused card *)

Inductive CardType := CardNone | CardSplit | CardStructure | CardPrompt | CardImage.

(** [!!s] for an optional string. *)
Definition str_truthy (o : option jsstring) : bool :=
  match o with Some (_ :: _) => true | _ => false end.

(** [Array.prototype.findIndex] *)
Fixpoint findIndex {A} (p : A -> bool) (l : list A) : Z :=
  match l with
  | [] => (-1)%Z
  | a :: r =>
      if p a then 0%Z
      else let k := findIndex p r in if (k =? -1)%Z then (-1)%Z else (k + 1)%Z
  end.

(** getActiveCardInfo of FlowCanvas; reading a field of [notes[i]] when it
    is [undefined] would throw. *)
Definition getActiveCardInfo (notes : list NoteUnit) : res (Z * CardType) :=
  match notes with
  | [] => Ok ((-1)%Z, CardNone)
  | n0 :: _ =>
      let processingIndex := findIndex isProcessing notes in
      if negb (processingIndex =? -1)%Z then
        match nth_error notes (Z.to_nat processingIndex) with
        | None => Throw TypeError
        | Some note =>
            if negb (structure_truthy (structure note)) then Ok (processingIndex, CardSplit)
            else if negb (str_truthy (generatedPrompt note)) then Ok (processingIndex, CardStructure)
            else if negb (str_truthy (finalImage note)) then Ok (processingIndex, CardPrompt)
            else Ok (processingIndex, CardImage)
        end
      else
        let lastIndex := (Z.of_nat (List.length notes) - 1)%Z in
        let lastNote := last notes n0 in
        if str_truthy (finalImage lastNote) then Ok (lastIndex, CardImage)
        else if str_truthy (generatedPrompt lastNote) then Ok (lastIndex, CardPrompt)
        else if structure_truthy (structure lastNote) then Ok (lastIndex, CardStructure)
        else Ok (lastIndex, CardSplit)
  end.

(* ------------------------------------------------------------------ *)
(** ** FlowCanvas: the module edits of BlockEditor *)

(** [keyof ContentModule] *)
Inductive CMField := F_id | F_heading | F_content.

(** [{ ...m, [field]: value }]; spreading [undefined] copies nothing. *)
Definition set_field (m : option ContentModule) (field : CMField) (value : jsstring)
  : ContentModule :=
  let b := match m with Some c => c | None => Build_ContentModule None None None end in
  match field with
  | F_id => {| cm_id := Some value; heading := heading b; content := content b |}
  | F_heading => {| cm_id := cm_id b; heading := Some value; content := content b |}
  | F_content => {| cm_id := cm_id b; heading := heading b; content := Some value |}
  end.

(** [arr[i] = x] for [i] in range. *)
Fixpoint list_set {A} (l : list A) (i : nat) (x : A) : list A :=
  match l, i with
  | [], _ => []
  | _ :: r, O => x :: r
  | a :: r, S i' => a :: list_set r i' x
  end.

(** [{ ...structure, modules: ms }] *)
Definition with_modules (st : LeftBrainData) (ms : list (option ContentModule)) : LeftBrainData :=
  {| title := title st; summary_context := summary_context st;
     visual_theme_keywords := visual_theme_keywords st; modules := Some ms |}.

(** handleModuleChange: [const newModules = [...structure.modules];
    newModules[index] = { ...newModules[index], [field]: value };]
    Spreading an absent [modules] throws; past the end the assignment
    extends the array, the skipped slots (holes) shown as [None]. *)
Definition handleModuleChange (st : LeftBrainData) (index : nat) (field : CMField)
  (value : jsstring) : res LeftBrainData :=
  match modules st with
  | None => Throw TypeError
  | Some ms =>
      Ok (with_modules st
            (if (index <? List.length ms)%nat
             then list_set ms index (Some (set_field (nth index ms None) field value))
             else ms ++ repeat None (index - List.length ms)
                     ++ [Some (set_field None field value)]))
  end.

(** addModule, [now] standing for [Date.now().toString()]. *)
Definition addModule (st : LeftBrainData) (now : jsstring) : res LeftBrainData :=
  match modules st with
  | None => Throw TypeError
  | Some ms =>
      Ok (with_modules st
            (ms ++ [Some {| cm_id := Some now; heading := Some (js "新模块");
                            content := Some [] |}]))
  end.

(** deleteModule: [structure.modules.filter((_, i) => i !== index)] *)
Definition deleteModule (st : LeftBrainData) (index : nat) : res LeftBrainData :=
  match modules st with
  | None => Throw TypeError
  | Some ms =>
      Ok (with_modules st
            (map snd (filter (fun '(i, _) => negb (i =? index)%nat)
                        (combine (seq 0 (List.length ms)) ms))))
  end.

(* ------------------------------------------------------------------ *)
(** ** The image proxy of src/unnamed/part_000 *)

Section Proxy.

(** [Buffer.from(s)]: the UTF-8 bytes of a string. *)
Variable Buffer_from : jsstring -> list N.

(** A chunk of the request stream. *)
Inductive BodyChunk := StrChunk (s : jsstring) | BufChunk (b : list N).

Record ProxyEnv := {
  px_GEMINI_API_KEY : option jsstring;
  px_API_KEY : option jsstring
}.

Record VercelRequest := {
  req_method : jsstring;
  req_url : option jsstring;
  req_content_type : option jsstring;
  req_chunks : list BodyChunk
}.

(** The [fetch] the handler makes. *)
Record UpstreamRequest := {
  up_url : jsstring;
  up_method : jsstring;
  up_content_type : jsstring;
  up_body : option (list N)
}.

(** The upstream answer (status, headers, [arrayBuffer()] bytes), or the
    [message] of the exception thrown while getting it. *)
Inductive FetchOutcome :=
| Fetched (status : nat) (headers : list (jsstring * jsstring)) (body : list N)
| FetchFailed (message : option jsstring).

Inductive ProxyBody := SendText (s : jsstring) | SendBytes (b : list N).

Record ProxyResponse := {
  resp_status : nat;
  resp_headers : list (jsstring * jsstring);
  resp_body : ProxyBody
}.

Definition TARGET : jsstring := js "https://generativelanguage.googleapis.com".

Definition chunk_bytes (c : BodyChunk) : list N :=
  match c with StrChunk s => Buffer_from s | BufChunk b => b end.

(** readBody *)
Definition readBody (req : VercelRequest) : option (list N) :=
  if jsstring_eqb (req_method req) (js "GET") || jsstring_eqb (req_method req) (js "HEAD")
  then None
  else match req_chunks req with
       | [] => None
       | cs => Some (List.concat (map chunk_bytes cs))
       end.

(** [url.replace(/^\/api\/imagen/, '')] *)
Definition strip_api_prefix (url : jsstring) : jsstring :=
  if prefixb (js "/api/imagen") url then skipn 11 url else url.

(** [`${TARGET}${req.url?.replace(/^\/api\/imagen/, '')}?key=${key}`];
    an undefined [req.url] prints as "undefined". *)
Definition upstreamUrl (key : jsstring) (url : option jsstring) : jsstring :=
  TARGET ++ match url with Some u => strip_api_prefix u | None => js "undefined" end
  ++ js "?key=" ++ key.

(** The handler: the upstream request it makes, if any, and its answer;
    [upstream] gives the outcome of that request. *)
Definition handler (env : ProxyEnv) (req : VercelRequest)
  (upstream : UpstreamRequest -> FetchOutcome) : option UpstreamRequest * ProxyResponse :=
  let key := match truthy (px_GEMINI_API_KEY env) with
             | Some k => Some k
             | None => px_API_KEY env
             end in
  match truthy key with
  | None =>
      (None, {| resp_status := 500; resp_headers := [];
                resp_body := SendText (js "Missing GEMINI_API_KEY/API_KEY") |})
  | Some k =>
      let u := {| up_url := upstreamUrl k (req_url req); up_method := req_method req;
                  up_content_type := opt_or (req_content_type req) (js "application/json");
                  up_body := readBody req |} in
      (Some u,
        match upstream u with
        | Fetched st hs body => {| resp_status := st; resp_headers := hs; resp_body := SendBytes body |}
        | FetchFailed msg =>
            {| resp_status := 500; resp_headers := [];
               resp_body := SendText (opt_or msg (js "Proxy error")) |}
        end)
  end.

End Proxy.

(** The URL fetchImagen requests:
    [`${IMAGEN_PROXY}/v1beta/models/${IMAGE_MODEL}:predict?key=${apiKey}`],
    with [IMAGEN_PROXY = process.env.IMAGEN_PROXY || '/api/imagen']. *)
Definition IMAGEN_PROXY (env_IMAGEN_PROXY : option jsstring) : jsstring :=
  opt_or env_IMAGEN_PROXY (js "/api/imagen").

Definition imagen_url (proxy model apiKey : jsstring) : jsstring :=
  proxy ++ js "/v1beta/models/" ++ model ++ js ":predict?key=" ++ apiKey.


(** A deployment on the default model whose first call fails and whose
    second call returns an inline image. *)
Definition sample_env_second : ImageEnv :=
  {| env_IMAGE_MODEL := None;
     env_API_KEY := None;
     generateContent := fun i =>
       match i with
       | O => Throw (Transport (js "timeout"))
       | _ => Ok (Some [Some [Some {| inl_data := Some (js "AAAA"); inl_mimeType := None |}]])
       end;
     fetch_predict := fun _ => Throw (Transport (js "unreachable")) |}.

(** Two units: one with an outline, one without. *)
Definition sample_design_store : list NoteUnit :=
  [{| id := js "a"; order := 1; originalText := js "text a"; stage := ReviewStructure;
      isProcessing := false; structure := Some (JObj [(js "title", JStr (js "A"))]);
      generatedPrompt := None; finalImage := None; error := None |};
   {| id := js "b"; order := 2; originalText := js "text b"; stage := Organizing;
      isProcessing := false; structure := None;
      generatedPrompt := None; finalImage := None; error := None |}].

(** A process log of three steps, the first one running. *)
Definition sample_log : list ChatItem :=
  [{| ci_id := js "p"; ci_type := js "process_log"; ci_role := Some (js "organizer");
      ci_content := None; ci_timestamp := None;
      ci_steps := Some [Some {| ps_id := Some (js "p1"); ps_label := None;
                                ps_status := Some Running; ps_detail := None |};
                        Some {| ps_id := Some (js "p2"); ps_label := None;
                                ps_status := Some Pending; ps_detail := None |};
                        Some {| ps_id := Some (js "p3"); ps_label := None;
                                ps_status := Some Pending; ps_detail := None |}];
      ci_componentType := None; ci_data := None |}].

(* ================================================================== *)
(** * Properties *)

(** Sanity checks of the string model. *)
Example js_length_sentence : List.length (js "这是一句话。") = 6%nat.
Proof. vm_compute. reflexivity. Qed.

Example strip_fences_example :
  strip_fences (js "```JSON [1] ```") = js "[1]".
Proof. vm_compute. reflexivity. Qed.

Example chunk_seven : chunk [1;2;3;4;5;6;7]%nat 3 = [[1;2;3];[4;5;6];[7]]%nat.
Proof. reflexivity. Qed.

Lemma jsstring_eqb_true a b : jsstring_eqb a b = true <-> a = b.
Proof.
  unfold jsstring_eqb; destruct (list_eq_dec N.eq_dec a b); split; congruence.
Qed.

Lemma jsstring_eqb_refl a : jsstring_eqb a a = true.
Proof. apply jsstring_eqb_true; reflexivity. Qed.

Lemma jsstring_eqb_sym a b : jsstring_eqb a b = jsstring_eqb b a.
Proof.
  unfold jsstring_eqb.
  destruct (list_eq_dec N.eq_dec a b), (list_eq_dec N.eq_dec b a); congruence.
Qed.

(** ** The store: updates by id *)

Lemma apply_patch_id n p : id (apply_patch n p) = id n.
Proof. reflexivity. Qed.

(** Every note evolves by the updates addressed to its own id, in order. *)
Lemma apply_updates_map store us :
  apply_updates store us =
  map (fun n => apply_patches n (filter (fun u => jsstring_eqb (id n) (fst u)) us)) store.
Proof.
  revert store; induction us as [|u us IH]; intros store.
  - simpl. symmetry. apply map_id.
  - unfold apply_updates in *. simpl fold_left. rewrite IH.
    unfold updateNote. rewrite map_map. apply map_ext. intros n.
    simpl filter. destruct (jsstring_eqb (id n) (fst u)) eqn:E.
    + reflexivity.
    + reflexivity.
Qed.

Lemma apply_patches_nil n : apply_patches n [] = n.
Proof. reflexivity. Qed.

(** ** Interleavings *)

Lemma interleave_filter {A} (p : A -> bool) ls tr :
  interleave ls tr -> interleave (map (filter p) ls) (filter p tr).
Proof.
  induction 1 as [ls Hnil | pre u rest post tr Hi IH].
  - simpl. constructor. apply Forall_map.
    eapply Forall_impl; [|exact Hnil]. intros l ->. reflexivity.
  - rewrite map_app in *. simpl map in *. simpl filter.
    destruct (p u).
    + apply il_pick. exact IH.
    + exact IH.
Qed.

Lemma interleave_all_nil {A} (ls : list (list A)) tr :
  interleave ls tr -> Forall (fun l => l = []) ls -> tr = [].
Proof.
  induction 1 as [ls _ | pre u rest post tr _ _]; intros Hn; [reflexivity|].
  apply Forall_app in Hn as [_ Hn]. inversion Hn. discriminate.
Qed.

Lemma app_cons_nonnil_eq {A} (pre0 pre post0 post : list (list A)) a x :
  pre0 ++ a :: post0 = pre ++ x :: post ->
  Forall (fun l => l = []) pre -> Forall (fun l => l = []) post -> a <> [] ->
  pre0 = pre /\ a = x /\ post0 = post.
Proof.
  revert pre; induction pre0 as [|b pre0 IH]; intros pre Heq Hpre Hpost Ha;
    destruct pre as [|y pre]; simpl in Heq.
  - injection Heq as -> ->. auto.
  - injection Heq as -> _. inversion Hpre; subst. contradiction.
  - injection Heq as _ Hp.
    assert (In a post) as Hin by (rewrite <- Hp; apply in_or_app; right; left; reflexivity).
    rewrite Forall_forall in Hpost. apply Hpost in Hin. contradiction.
  - injection Heq as -> Heq. inversion Hpre as [|? ? _ Hpre']; subst.
    destruct (IH pre Heq Hpre' Hpost Ha) as (-> & -> & ->). auto.
Qed.

(** An interleaving where a single task has updates is that task's list. *)
Lemma interleave_single {A} (ls : list (list A)) tr :
  interleave ls tr -> forall pre x post, ls = pre ++ x :: post ->
  Forall (fun l => l = []) pre -> Forall (fun l => l = []) post -> tr = x.
Proof.
  induction 1 as [ls Hnil | pre0 u rest post0 tr Hi IH];
    intros pre x post Heq Hpre Hpost.
  - subst. apply Forall_app in Hnil as [_ Hn]. inversion Hn; subst. reflexivity.
  - destruct (app_cons_nonnil_eq pre0 pre post0 post (u :: rest) x Heq Hpre Hpost)
      as (-> & <- & ->); [discriminate|].
    f_equal. eapply IH; eauto.
Qed.

Lemma filter_own (t : NoteUnit -> list update) w k :
  Forall (fun u => fst u = id w) (t w) ->
  filter (fun u => jsstring_eqb k (fst u)) (t w) =
  if jsstring_eqb (id w) k then t w else [].
Proof.
  induction 1 as [|u us Hu _ IH]; simpl.
  - destruct (jsstring_eqb (id w) k); reflexivity.
  - rewrite Hu, IH, (jsstring_eqb_sym k (id w)).
    destruct (jsstring_eqb (id w) k); reflexivity.
Qed.

(** One wave of concurrent unit tasks with distinct ids: every note of the
    store ends as its own record with its own task's updates applied, and a
    note outside the wave is untouched, whatever the interleaving. *)
Lemma wave_apply (t : NoteUnit -> list update) wave store tr :
  own_task t -> NoDup (map id wave) -> interleave (map t wave) tr ->
  apply_updates store tr =
  map (fun n => match find (fun w => jsstring_eqb (id w) (id n)) wave with
                | Some w => apply_patches n (t w)
                | None => n
                end) store.
Proof.
  intros Ht Hnd Hi. rewrite apply_updates_map. apply map_ext. intros n.
  pose proof (interleave_filter (fun u => jsstring_eqb (id n) (fst u)) _ _ Hi) as H.
  rewrite map_map in H.
  assert (Hown : forall w, filter (fun u => jsstring_eqb (id n) (fst u)) (t w) =
                           if jsstring_eqb (id w) (id n) then t w else [])
    by (intros w; apply filter_own, Ht).
  destruct (find (fun w => jsstring_eqb (id w) (id n)) wave) as [w|] eqn:Ef.
  - apply find_some in Ef as [Hin Heq].
    apply in_split in Hin as (l1 & l2 & ->).
    rewrite map_app in Hnd. simpl in Hnd. apply NoDup_remove_2 in Hnd.
    assert (Hother : forall w', In w' (l1 ++ l2) -> jsstring_eqb (id w') (id n) = false).
    { intros w' Hw'. destruct (jsstring_eqb (id w') (id n)) eqn:E; [|reflexivity].
      exfalso. apply Hnd. apply jsstring_eqb_true in E, Heq.
      rewrite <- map_app. apply in_map_iff. exists w'. split; [congruence | exact Hw']. }
    rewrite map_app in H. simpl in H.
    rewrite (interleave_single _ _ H _ _ _ eq_refl).
    + rewrite Hown, Heq. reflexivity.
    + apply Forall_forall. intros l Hl. apply in_map_iff in Hl as (w' & <- & Hw').
      rewrite Hown, Hother; [reflexivity|]. apply in_or_app; left; exact Hw'.
    + apply Forall_forall. intros l Hl. apply in_map_iff in Hl as (w' & <- & Hw').
      rewrite Hown, Hother; [reflexivity|]. apply in_or_app; right; exact Hw'.
  - rewrite (interleave_all_nil _ _ H); [reflexivity|].
    apply Forall_forall. intros l Hl. apply in_map_iff in Hl as (w' & <- & Hw').
    rewrite Hown. pose proof (find_none _ _ Ef w' Hw') as E. simpl in E.
    rewrite E. reflexivity.
Qed.

Lemma processNoteStructure_own (lb : NoteUnit -> res jvalue) :
  own_task (fun w => processNoteStructure w (lb w)).
Proof.
  intros w. unfold processNoteStructure. destruct (lb w); repeat constructor.
Qed.

Lemma paintNote_own (hand : NoteUnit -> res jsstring) :
  own_task (fun w => paintNote w (hand w)).
Proof.
  intros w. unfold paintNote.
  destruct (generatedPrompt w) as [[|c s]|]; [constructor| |constructor].
  destruct (hand w); repeat constructor.
Qed.

Lemma interleave_pick {A} pre (u : A) rest post tr ls :
  ls = pre ++ (u :: rest) :: post ->
  interleave (pre ++ rest :: post) tr -> interleave ls (u :: tr).
Proof. intros ->. apply il_pick. Qed.

(** ** C6: one unit's failure is isolated within its wave *)

(** C6. In a structuring wave and in a rendering wave, for every
    interleaving of the units' updateNote calls, every note of the store
    ends as a function of its own call's outcome alone: a failed unit gets
    only [isProcessing = false] and its [error] set ([mark_failed]), a
    unit whose call succeeded reaches ReviewStructure (resp. Done), and a
    note outside the wave is unchanged. *)
Theorem batch_wave_failure_isolation (store wave : list NoteUnit)
  (lb : NoteUnit -> res jvalue) (hand : NoteUnit -> res jsstring)
  (tr1 tr2 : list update) :
  NoDup (map id wave) ->
  interleave (map (fun w => processNoteStructure w (lb w)) wave) tr1 ->
  interleave (map (fun w => paintNote w (hand w)) wave) tr2 ->
  apply_updates store tr1 =
    map (fun n => match wave_member wave n with
                  | Some w => organize_outcome n (lb w)
                  | None => n
                  end) store /\
  apply_updates store tr2 =
    map (fun n => match wave_member wave n with
                  | Some w => paint_outcome n w (hand w)
                  | None => n
                  end) store.
Proof.
  intros Hnd H1 H2. split.
  - rewrite (wave_apply _ _ _ _ (processNoteStructure_own lb) Hnd H1).
    apply map_ext. intros n. unfold wave_member.
    destruct (find _ wave) as [w|]; [|reflexivity].
    unfold processNoteStructure, organize_outcome. destruct (lb w); reflexivity.
  - rewrite (wave_apply _ _ _ _ (paintNote_own hand) Hnd H2).
    apply map_ext. intros n. unfold wave_member.
    destruct (find _ wave) as [w|]; [|reflexivity].
    unfold paintNote, paint_outcome.
    destruct (generatedPrompt w) as [[|c s]|]; [reflexivity| |reflexivity].
    destruct (hand w); reflexivity.
Qed.

Lemma batch_wave_failure_isolation_witness :
  let lb := fun _ : NoteUnit => processLeftBrain (fun _ => None) (Ok (Some (js "not json"))) in
  let wave := sample_store in
  let t1 := map (fun w => processNoteStructure w (lb w)) wave in
  let t2 := map (fun w => paintNote w (sample_hand w)) wave in
  let tr1 := alternate (nth 0 t1 []) (nth 1 t1 []) in
  let tr2 := alternate (nth 0 t2 []) (nth 1 t2 []) in
  apply_updates sample_store tr1 =
    map (fun n => match wave_member wave n with
                  | Some w => organize_outcome n (lb w)
                  | None => n
                  end) sample_store /\
  apply_updates sample_store tr2 =
    map (fun n => match wave_member wave n with
                  | Some w => paint_outcome n w (sample_hand w)
                  | None => n
                  end) sample_store.
Proof.
  intros lb wave t1 t2 tr1 tr2.
  apply (batch_wave_failure_isolation sample_store wave lb sample_hand tr1 tr2).
  - vm_compute. repeat constructor; simpl; intuition discriminate.
  - eapply (interleave_pick []); [reflexivity|].
    eapply (interleave_pick [_]); [reflexivity|].
    eapply (interleave_pick [_]); [reflexivity|].
    eapply (interleave_pick []); [reflexivity|].
    constructor. repeat constructor.
  - eapply (interleave_pick []); [reflexivity|].
    eapply (interleave_pick [_]); [reflexivity|].
    eapply (interleave_pick [_]); [reflexivity|].
    eapply (interleave_pick []); [reflexivity|].
    constructor. repeat constructor.
Defined.

(** ** C5: rendering in chunks of three *)

Section Chunking.
Local Open Scope nat_scope.

Lemma ceil_div_3_plus n : ceil_div (n + 3) 3 = S (ceil_div n 3).
Proof.
  unfold ceil_div.
  replace (n + 3 + 3 - 1) with (n + 3 - 1 + 1 * 3) by lia.
  rewrite Nat.div_add by lia. lia.
Qed.

Lemma chunk3_cons {A} (a b c : A) rest :
  chunk (a :: b :: c :: rest) 3 = [a; b; c] :: chunk rest 3.
Proof.
  unfold chunk. simpl List.length.
  replace (S (S (S (List.length rest)))) with (List.length rest + 3) by lia.
  rewrite ceil_div_3_plus. generalize (ceil_div (List.length rest) 3) as k. intros k.
  cbn [seq map]. rewrite <- seq_shift, map_map.
  f_equal.
Qed.

Lemma chunk3_short {A} (l : list A) :
  1 <= List.length l <= 3 -> chunk l 3 = [l].
Proof.
  intros H. destruct l as [|a [|b [|c [|d l]]]]; simpl in H; try lia; reflexivity.
Qed.

Lemma chunk3_shape {A} (l : list A) :
  List.concat (chunk l 3) = l /\
  Forall (fun c => 1 <= List.length c <= 3) (chunk l 3) /\
  (forall i, S i < List.length (chunk l 3) -> List.length (nth i (chunk l 3) []) = 3).
Proof.
  remember (List.length l) as n eqn:Hn. revert l Hn.
  induction n as [n IH] using (well_founded_induction lt_wf). intros l Hn.
  destruct l as [|a [|b [|c rest]]].
  - repeat split; [constructor | simpl; lia].
  - rewrite chunk3_short by (simpl; lia).
    repeat split; [repeat constructor; simpl; lia | simpl; lia].
  - rewrite chunk3_short by (simpl; lia).
    repeat split; [repeat constructor; simpl; lia | simpl; lia].
  - rewrite chunk3_cons.
    destruct (IH (List.length rest)) with (l := rest) as (H1 & H2 & H3);
      [simpl in Hn; lia | reflexivity |].
    split; [simpl; rewrite H1; reflexivity|]. split.
    + constructor; [simpl; lia | exact H2].
    + intros [|i] Hi; [reflexivity|]. apply H3. simpl in Hi. lia.
Qed.

Lemma calls_in_flight_le c : calls_in_flight c <= List.length c.
Proof.
  unfold calls_in_flight. induction c as [|n c IH]; simpl; [lia|].
  destruct (generatedPrompt n) as [[|x s]|]; simpl; lia.
Qed.

End Chunking.

(** C5. The rendering phase cuts the notes, in order, into consecutive
    chunks of at most three (every chunk but the last has exactly three),
    each chunk is one wave of [handleBatchPaint], run after the previous one
    has settled, so no wave has more than three processHand calls in
    flight; seven notes give three chunks, the third with one note. *)
Theorem handleBatchPaint_chunks_of_three (notes : list NoteUnit) :
  List.concat (chunk notes 3) = notes /\
  Forall (fun c => (1 <= List.length c <= 3)%nat /\ (calls_in_flight c <= 3)%nat)
    (chunk notes 3) /\
  (forall i, (S i < List.length (chunk notes 3))%nat ->
             List.length (nth i (chunk notes 3) []) = 3%nat) /\
  (forall hand store', handleBatchPaint hand notes store' <->
                       paint_chunks hand notes (chunk notes 3) store') /\
  (List.length notes = 7%nat ->
     List.length (chunk notes 3) = 3%nat /\ List.length (nth 2 (chunk notes 3) []) = 1%nat).
Proof.
  destruct (chunk3_shape notes) as (H1 & H2 & H3).
  split; [exact H1|]. split.
  { eapply Forall_impl; [|exact H2]. intros c Hc. split; [exact Hc|].
    pose proof (calls_in_flight_le c). cbv beta in Hc. lia. }
  split; [exact H3|]. split; [intros; reflexivity|].
  intros H7.
  destruct notes as [|n1 [|n2 [|n3 [|n4 [|n5 [|n6 [|n7 [|n8 rest]]]]]]]];
    simpl in H7; try discriminate.
  split; reflexivity.
Qed.

(** ** C1, C2: processLeftBrain and the structuring wave *)

Lemma processLeftBrain_ok JSON_parse reply :
  exists s, processLeftBrain JSON_parse reply = Ok s.
Proof.
  unfold processLeftBrain. destruct (left_brain_try JSON_parse reply); eauto.
Qed.

(** The updates of processNoteStructure, applied to the store. *)
Lemma processNoteStructure_store store note r :
  apply_updates store (processNoteStructure note r) =
  map (fun n => if jsstring_eqb (id n) (id note) then organize_outcome n r else n) store.
Proof.
  rewrite apply_updates_map. apply map_ext. intros n.
  unfold processNoteStructure. destruct r; simpl;
    destruct (jsstring_eqb (id n) (id note)); reflexivity.
Qed.

Example left_brain_fallback_shape :
  get_prop left_brain_fallback (js "title") = Ok (Some (JStr (js "解析失败"))).
Proof. vm_compute. reflexivity. Qed.

(** C1. When the reply text of the structuring call does not parse as
    JSON, or parses to an object whose [modules] is missing, null, empty
    or anything but a non-empty array, processLeftBrain returns the fixed
    fallback outline (title "解析失败", one explanatory module), and the
    unit advances to ReviewStructure with it, [isProcessing] false and its
    [error] field untouched. *)
Theorem processLeftBrain_malformed_fallback (JSON_parse : jsstring -> option jvalue)
  (text : option jsstring) (store : list NoteUnit) (note : NoteUnit) :
  (JSON_parse (clean_reply text (js "{}")) = None \/
   exists fs, JSON_parse (clean_reply text (js "{}")) = Some (JObj fs) /\
              forall ms, obj_get fs (js "modules") = Some (JArr ms) -> ms = []) ->
  processLeftBrain JSON_parse (Ok text) = Ok left_brain_fallback /\
  get_prop left_brain_fallback (js "title") = Ok (Some (JStr (js "解析失败"))) /\
  (exists m, get_prop left_brain_fallback (js "modules") = Ok (Some (JArr [m]))) /\
  apply_updates store (processNoteStructure note (processLeftBrain JSON_parse (Ok text))) =
  map (fun n => if jsstring_eqb (id n) (id note)
                then organized n left_brain_fallback else n) store.
Proof.
  intros Hbad.
  assert (Hfb : processLeftBrain JSON_parse (Ok text) = Ok left_brain_fallback).
  { unfold processLeftBrain, left_brain_try. cbn [bind]. unfold json_parse.
    destruct Hbad as [Hn | (fs & Hs & Hm)].
    - rewrite Hn. reflexivity.
    - rewrite Hs. cbn [bind get_prop].
      destruct (obj_get fs (js "modules")) as [[| | | |ms|]|] eqn:E; try reflexivity.
      rewrite (Hm ms eq_refl). reflexivity. }
  split; [exact Hfb|]. split; [vm_compute; reflexivity|].
  split; [eexists; vm_compute; reflexivity|].
  rewrite Hfb, processNoteStructure_store. reflexivity.
Qed.

(** Structuring never reaches the failure branch of processNoteStructure:
    a transport failure is caught inside processLeftBrain. *)
Lemma structuring_transport_failure_absorbed :
  let n := sample_note (js "a") (js "p") in
  let n' := apply_patches n (processNoteStructure n
               (processLeftBrain (fun _ => None) (Throw (Transport (js "network error"))))) in
  error n' = None /\ structure n' = Some left_brain_fallback /\
  stage n' = ReviewStructure /\ isProcessing n' = false.
Proof. vm_compute. repeat split. Qed.

(** C2 (as the code has it). A transport failure of the structuring call is
    absorbed like a malformed reply: processLeftBrain returns the fallback
    outline, the unit advances to ReviewStructure with [isProcessing] false
    and its [error] untouched; processLeftBrain fulfils for every reply, so
    the branch of processNoteStructure that sets [error] is never taken. *)
Theorem structuring_transport_failure_fallback (JSON_parse : jsstring -> option jvalue)
  (e : exn) (store : list NoteUnit) (note : NoteUnit) :
  processLeftBrain JSON_parse (Throw e) = Ok left_brain_fallback /\
  apply_updates store (processNoteStructure note (processLeftBrain JSON_parse (Throw e))) =
  map (fun n => if jsstring_eqb (id n) (id note)
                then organized n left_brain_fallback else n) store /\
  (forall reply, exists s, processLeftBrain JSON_parse reply = Ok s).
Proof.
  assert (H : processLeftBrain JSON_parse (Throw e) = Ok left_brain_fallback)
    by reflexivity.
  split; [exact H|]. split.
  - rewrite H, processNoteStructure_store. reflexivity.
  - apply processLeftBrain_ok.
Qed.

Lemma processLeftBrain_malformed_fallback_witness :
  let note := sample_note (js "a") (js "p") in
  processLeftBrain (fun _ => None) (Ok (Some (js "not json"))) = Ok left_brain_fallback /\
  get_prop left_brain_fallback (js "title") = Ok (Some (JStr (js "解析失败"))) /\
  (exists m, get_prop left_brain_fallback (js "modules") = Ok (Some (JArr [m]))) /\
  apply_updates sample_store
    (processNoteStructure note (processLeftBrain (fun _ => None) (Ok (Some (js "not json"))))) =
  map (fun n => if jsstring_eqb (id n) (id note)
                then organized n left_brain_fallback else n) sample_store.
Proof.
  intros note.
  apply (processLeftBrain_malformed_fallback (fun _ => None) (Some (js "not json"))
           sample_store note).
  left. reflexivity.
Defined.

(** ** C4, C9: processSplitBrain *)

Lemma trim_start_length s : (List.length (trim_start s) <= List.length s)%nat.
Proof.
  induction s as [|c s IH]; simpl; [lia|].
  destruct (is_js_space c); simpl; lia.
Qed.

Lemma trim_length s : (List.length (trim s) <= List.length s)%nat.
Proof.
  unfold trim. rewrite length_rev.
  pose proof (trim_start_length (rev (trim_start s))) as H1.
  rewrite length_rev in H1. pose proof (trim_start_length s). lia.
Qed.

(** validParts keeps, in order, exactly the string segments whose trimmed
    length is at least 100. *)
Lemma validParts_spec ps s :
  In s (validParts ps) <-> In (JStr s) ps /\ (100 <= List.length (trim s))%nat.
Proof.
  induction ps as [|p ps IH]; [simpl; tauto|].
  unfold validParts in *. cbn [flat_map]. rewrite in_app_iff, IH.
  destruct p as [| | |t| |]; cbn [valid_part];
    try (cbn [In]; split; [intros [[]|H]; tauto
                          | intros [[H|H] H']; [discriminate|tauto]]).
  destruct (Nat.leb_spec 100 (List.length (trim t))) as [Ht|Ht]; cbn [In]; split.
  - intros [[<-|[]]|H]; [split; [left; reflexivity|exact Ht]|tauto].
  - intros [[H|H] H']; [injection H as ->; tauto|tauto].
  - intros [[]|H]; tauto.
  - intros [[H|H] H']; [injection H as ->; lia|tauto].
Qed.

Lemma validParts_long ps :
  Forall (fun s => (100 <= List.length s)%nat) (validParts ps).
Proof.
  apply Forall_forall. intros s Hs. apply validParts_spec in Hs as [_ H].
  pose proof (trim_length s). lia.
Qed.

(** C4. processSplitBrain always fulfils with a non-empty list of
    segments: on a failed call, a reply that does not parse, or a parsed
    value that is not an array, the list is [[text]]; on an array, the
    string segments shorter than 100 characters after trimming (hence
    every segment shorter than 100 characters) are dropped, the rest kept
    in order, and if none is left the list is [[text]]. *)
Theorem processSplitBrain_total (JSON_parse : jsstring -> option jvalue)
  (reply : res (option jsstring)) (text : jsstring) :
  exists parts, processSplitBrain JSON_parse reply text = Ok parts /\ parts <> [] /\
  match reply with
  | Throw _ => parts = [text]
  | Ok r =>
      match JSON_parse (clean_reply r (js "[]")) with
      | Some (JArr ps) =>
          (forall s, In s (validParts ps) <->
                     In (JStr s) ps /\ (100 <= List.length (trim s))%nat) /\
          Forall (fun s => (100 <= List.length s)%nat) (validParts ps) /\
          parts = match validParts ps with [] => [text] | vs => vs end
      | _ => parts = [text]
      end
  end.
Proof.
  unfold processSplitBrain, split_try.
  destruct reply as [r|e]; cbn [bind];
    [|exists [text]; split; [reflexivity|split; [discriminate|reflexivity]]].
  unfold json_parse.
  destruct (JSON_parse (clean_reply r (js "[]"))) as [v|];
    [|exists [text]; split; [reflexivity|split; [discriminate|reflexivity]]].
  cbn [bind].
  destruct v as [| | | |ps|];
    try (exists [text]; split; [reflexivity|split; [discriminate|reflexivity]]).
  destruct ps as [|p ps'].
  - exists [text]. split; [reflexivity|]. split; [discriminate|].
    split; [apply validParts_spec|]. split; [apply validParts_long|reflexivity].
  - destruct (validParts (p :: ps')) as [|v vs] eqn:Ev.
    + exists [text]. split; [reflexivity|]. split; [discriminate|].
      rewrite <- Ev. split; [apply validParts_spec|].
      split; [apply validParts_long|rewrite Ev; reflexivity].
    + exists (v :: vs). split; [reflexivity|]. split; [discriminate|].
      rewrite <- Ev. split; [apply validParts_spec|].
      split; [apply validParts_long|rewrite Ev; reflexivity].
Qed.

(** A six-character input for which the service returns one segment of 100
    characters: that segment is kept, and the input is not the output. *)
Lemma split_short_input_keeps_long_segment :
  let text := js "这是一句话。" in
  let seg := repeat 97 100 in
  List.length text = 6%nat /\
  processSplitBrain (fun _ => Some (JArr [JStr seg])) (Ok (Some (js "[...]"))) text
    = Ok [seg] /\
  seg <> text.
Proof. vm_compute. split; [reflexivity|]. split; [reflexivity|discriminate]. Qed.

(** C9 (as the code has it). For an input shorter than 100 characters,
    processSplitBrain returns exactly [[text]] when the call fails, the
    reply is not a JSON array, or every string segment it returns is the
    input itself or shorter than 100 characters after trimming; handleSplit
    then creates a single NoteUnit with [order = 1] and the input as its
    text. *)
Theorem processSplitBrain_short_input (JSON_parse : jsstring -> option jvalue)
  (reply : res (option jsstring)) (text : jsstring) (uids : list jsstring) :
  (List.length text < 100)%nat ->
  (forall r ps s, reply = Ok r -> JSON_parse (clean_reply r (js "[]")) = Some (JArr ps) ->
                  In (JStr s) ps -> s = text \/ (List.length (trim s) < 100)%nat) ->
  processSplitBrain JSON_parse reply text = Ok [text] /\
  handleSplit_notes uids [text] =
    [{| id := hd [] uids; order := 1; originalText := text; stage := Organizing;
        isProcessing := false; structure := None; generatedPrompt := None;
        finalImage := None; error := None |}].
Proof.
  intros Hlen Hsegs. split; [|reflexivity].
  destruct (processSplitBrain_total JSON_parse reply text) as (parts & Hp & _ & Hc).
  rewrite Hp. f_equal.
  destruct reply as [r|e]; [|exact Hc].
  destruct (JSON_parse (clean_reply r (js "[]"))) as [v|] eqn:Ej; try exact Hc.
  destruct v as [| | | |ps|]; try exact Hc.
  destruct Hc as (Hspec & _ & ->).
  destruct (validParts ps) as [|v vs] eqn:Ev; [reflexivity|].
  exfalso. assert (Hin : In v (v :: vs)) by (left; reflexivity).
  apply Hspec in Hin as [Hin Hlong].
  destruct (Hsegs r ps v eq_refl Ej Hin) as [->|Hshort]; [|lia].
  pose proof (trim_length text). lia.
Qed.

Lemma processSplitBrain_short_input_witness :
  let text := js "这是一句话。" in
  processSplitBrain (fun _ => Some (JArr [JStr text])) (Ok (Some (js "[...]"))) text
    = Ok [text] /\
  handleSplit_notes [js "u1"] [text] =
    [{| id := js "u1"; order := 1; originalText := text; stage := Organizing;
        isProcessing := false; structure := None; generatedPrompt := None;
        finalImage := None; error := None |}].
Proof.
  intros text.
  apply (processSplitBrain_short_input (fun _ => Some (JArr [JStr text]))
           (Ok (Some (js "[...]"))) text [js "u1"]).
  - vm_compute. lia.
  - intros r ps s Hr Hj Hin. left. injection Hj as <-.
    destruct Hin as [Hs|[]]. injection Hs as ->. reflexivity.
Defined.

(** ** C3, C8: processHand *)

Lemma hand_attempt_path env i :
  fst (hand_attempt env i) =
  if includes (toLowerCase (IMAGE_MODEL env)) (js "gemini") then InlinePath i
  else PredictPath i.
Proof. unfold hand_attempt. destruct (includes _ _); reflexivity. Qed.

Lemma hand_attempt_uri env i uri :
  snd (hand_attempt env i) = Ok uri -> exists mimeType data, uri = data_uri mimeType data.
Proof.
  unfold hand_attempt. destruct (includes _ _); cbn [snd].
  - destruct (generateContent env i) as [resp|e]; cbn [bind]; [|discriminate].
    destruct (extractInlineImage resp) as [[d m]|]; [|discriminate].
    intros H. injection H as <-. eauto.
  - unfold fetchImagen. destruct (truthy (env_API_KEY env)); [|discriminate].
    destruct (fetch_predict env i) as [r|e]; cbn [bind]; [|discriminate].
    destruct (negb (ok r)); [discriminate|].
    destruct (body_predictions r) as [preds|e]; cbn [bind]; [|discriminate].
    repeat match goal with
           | |- context [match ?x with _ => _ end] => destruct x
           end; intros H; try discriminate; injection H as <-; eauto.
Qed.

(** The loop makes at most as many attempts as rounds it is given. *)
Lemma hand_loop_attempts env i n e :
  (attempts (fst (hand_loop env i n e)) <= n)%nat.
Proof.
  revert i e; induction n as [|n IH]; intros i e; simpl.
  { unfold attempts. simpl. lia. }
  pose proof (hand_attempt_path env i) as P.
  destruct (hand_attempt env i) as [ev r]. cbn [fst] in P. subst ev.
  destruct r as [uri|e'].
  - unfold attempts. destruct (includes _ _); simpl; lia.
  - specialize (IH (S i) e').
    destruct (hand_loop env (S i) n e') as [evs r']. cbn [fst] in *.
    unfold attempts in *. destruct (includes _ _); simpl; lia.
Qed.

(** A success on the second attempt returns at once: one wait of 1s, no
    third attempt. *)
Lemma processHand_success_second env e uri :
  snd (hand_attempt env 0) = Throw e -> snd (hand_attempt env 1) = Ok uri ->
  processHand env =
  ([fst (hand_attempt env 0); Sleep 1000; fst (hand_attempt env 1)], Ok uri).
Proof.
  intros H0 H1. unfold processHand, maxRetries. simpl.
  destruct (hand_attempt env 0) as [ev0 r0]. cbn [snd fst] in *. subst r0.
  destruct (hand_attempt env 1) as [ev1 r1]. cbn [snd fst] in *. subst r1.
  reflexivity.
Qed.

(** C3 (code_bug). When all three attempts fail, processHand waits after
    each of them, the third included: 1s, 2s and then 3s before it throws
    the error of the third attempt. *)
Theorem processHand_all_attempts_fail (env : ImageEnv) :
  (forall i, (i < 3)%nat -> exists e, snd (hand_attempt env i) = Throw e) ->
  sleeps (fst (processHand env)) = [1000; 2000; 3000]%nat /\
  attempts (fst (processHand env)) = 3%nat /\
  snd (processHand env) = snd (hand_attempt env 2).
Proof.
  intros H.
  destruct (H 0%nat ltac:(lia)) as [e0 H0].
  destruct (H 1%nat ltac:(lia)) as [e1 H1].
  destruct (H 2%nat ltac:(lia)) as [e2 H2].
  pose proof (hand_attempt_path env 0) as P0.
  pose proof (hand_attempt_path env 1) as P1.
  pose proof (hand_attempt_path env 2) as P2.
  unfold processHand, maxRetries. simpl.
  destruct (hand_attempt env 0) as [ev0 r0]. cbn [snd fst] in *. subst r0.
  destruct (hand_attempt env 1) as [ev1 r1]. cbn [snd fst] in *. subst r1.
  destruct (hand_attempt env 2) as [ev2 r2]. cbn [snd fst] in *. subst r2.
  subst ev0 ev1 ev2. unfold attempts.
  destruct (includes _ _); repeat split.
Qed.

Lemma processHand_all_attempts_fail_witness :
  sleeps (fst (processHand sample_env_no_key)) = [1000; 2000; 3000]%nat /\
  attempts (fst (processHand sample_env_no_key)) = 3%nat /\
  snd (processHand sample_env_no_key) = snd (hand_attempt sample_env_no_key 2).
Proof.
  apply processHand_all_attempts_fail.
  intros i Hi. eexists. unfold hand_attempt, fetchImagen.
  vm_compute. reflexivity.
Defined.

(** C8. Every attempt of processHand takes the inline-part path
    (generateContent) exactly when the lowercased model id contains
    "gemini", the prediction-list path (fetchImagen) otherwise; a
    fulfilled result is a [data:<mime>;base64,<data>] URI. *)
Theorem processHand_backend_by_model (env : ImageEnv) :
  Forall (fun ev => match ev with
                    | InlinePath _ => includes (toLowerCase (IMAGE_MODEL env)) (js "gemini") = true
                    | PredictPath _ => includes (toLowerCase (IMAGE_MODEL env)) (js "gemini") = false
                    | Sleep _ => True
                    end) (fst (processHand env)) /\
  (forall uri, snd (processHand env) = Ok uri ->
               exists mimeType data, uri = data_uri mimeType data).
Proof.
  unfold processHand. generalize 0%nat as i. generalize Undefined as e.
  generalize maxRetries as n.
  induction n as [|n IH]; intros e i; simpl.
  - split; [constructor|discriminate].
  - pose proof (hand_attempt_path env i) as P. pose proof (hand_attempt_uri env i) as U.
    destruct (hand_attempt env i) as [ev r]. cbn [fst snd] in *. subst ev.
    destruct r as [uri|e'].
    + split.
      * constructor; [|constructor].
        destruct (includes _ _); reflexivity.
      * intros uri' Hu. injection Hu as <-. apply U. reflexivity.
    + specialize (IH e' (S i)).
      destruct (hand_loop env (S i) n e') as [evs r']. cbn [fst snd] in *.
      destruct IH as [IH1 IH2]. split; [|exact IH2].
      constructor; [|constructor; [exact I|exact IH1]].
      destruct (includes _ _); reflexivity.
Qed.

(** ** C7, C10: processRightBrain *)

Lemma or_default_idem a b : or_default (or_default a b) b = or_default a b.
Proof. destruct a, b; reflexivity. Qed.

Lemma opt_or_with_default x d : opt_or (Some (opt_or x d)) d = opt_or x d.
Proof. destruct x; cbn [opt_or]; [apply or_default_idem | destruct d; reflexivity]. Qed.

(** C7. processRightBrain is a total function of the outline and the
    settings, and an outline with absent or empty title, summary, keywords
    or modules gives the same instruction text as the outline where those
    fields hold their defaults ("未命名笔记", empty summary,
    "abstract concepts", no modules). *)
Theorem processRightBrain_defaults (d : LeftBrainData) (s : VisualSettings) :
  processRightBrain (Some d) s = processRightBrain (Some (with_defaults d)) s /\
  (forall d' s', d' = d -> s' = s ->
     processRightBrain (Some d') s' = processRightBrain (Some d) s).
Proof.
  split; [|intros d' s' -> ->; reflexivity].
  unfold processRightBrain, with_defaults.
  cbn [title summary_context visual_theme_keywords modules].
  rewrite !opt_or_with_default. cbn [opt_or].
  destruct (modules d); reflexivity.
Qed.

Lemma find_style_unknown sid :
  (forall st, In st STYLES -> style_id st <> sid) ->
  find_style sid = find_style (js "healing").
Proof.
  intros H. unfold find_style at 1.
  destruct (find (fun s => jsstring_eqb (style_id s) sid) STYLES) as [st|] eqn:E.
  - apply find_some in E as [Hin Heq]. apply jsstring_eqb_true in Heq.
    exfalso; exact (H st Hin Heq).
  - vm_compute. reflexivity.
Qed.

(** C10. processRightBrain returns a string for inputs outside its
    domain: "Error: No data provided" without an outline, and with a
    styleId that names no style it renders with the first style of the
    table ("healing"). *)
Theorem processRightBrain_outside_domain (d : LeftBrainData) (s : VisualSettings) :
  (forall st, In st STYLES -> style_id st <> styleId s) ->
  processRightBrain None s = js "Error: No data provided" /\
  find_style (styleId s) = hd (Build_Style [] [] [] []) STYLES /\
  processRightBrain (Some d) s =
  processRightBrain (Some d) {| styleId := js "healing"; colorTheme := colorTheme s;
                               watermark := watermark s |}.
Proof.
  intros H. pose proof (find_style_unknown _ H) as Hf.
  split; [reflexivity|]. split.
  - rewrite Hf. vm_compute. reflexivity.
  - unfold processRightBrain, right_brain_template.
    cbn [styleId colorTheme watermark]. rewrite Hf. reflexivity.
Qed.

Lemma processRightBrain_outside_domain_witness :
  let s := {| styleId := js "watercolor"; colorTheme := js "#ffffff";
              watermark := js "" |} in
  (forall st, In st STYLES -> style_id st <> styleId s) /\
  processRightBrain None s = js "Error: No data provided" /\
  find_style (styleId s) = hd (Build_Style [] [] [] []) STYLES /\
  processRightBrain (Some sample_outline) s =
  processRightBrain (Some sample_outline)
    {| styleId := js "healing"; colorTheme := colorTheme s; watermark := watermark s |}.
Proof.
  intros s.
  assert (Hs : forall st, In st STYLES -> style_id st <> styleId s).
  { intros st Hin. unfold STYLES in Hin.
    repeat (destruct Hin as [<-|Hin]; [vm_compute; discriminate|]). destruct Hin. }
  split; [exact Hs|]. apply processRightBrain_outside_domain. exact Hs.
Defined.

(** ** More of the application *)

(** *** The request text and retries of processHand *)

Lemma prefixb_app p x : prefixb p (p ++ x) = true.
Proof. induction p as [|a p IH]; simpl; [reflexivity|]. rewrite N.eqb_refl, IH. reflexivity. Qed.

Lemma includes_app_mid a b c : includes (a ++ b ++ c) b = true.
Proof.
  induction a as [|x a IH]; simpl.
  - destruct b as [|y b]; [destruct c; reflexivity|].
    simpl. rewrite N.eqb_refl, prefixb_app. reflexivity.
  - rewrite IH. apply orb_true_r.
Qed.

(** X1. The text processHand sends holds the note's prompt verbatim and
    the instructions of its style; a styleId other than tech, retro, zen
    and clay gets the cute-journal instructions of healing. *)
Theorem imagePrompt_contents (prompt styleId : jsstring) :
  includes (imagePrompt prompt styleId) prompt = true /\
  includes (imagePrompt prompt styleId) (getStyleInstructions styleId) = true /\
  (~ In styleId [js "tech"; js "retro"; js "zen"; js "clay"] ->
   imagePrompt prompt styleId = imagePrompt prompt (js "healing")).
Proof.
  split; [|split].
  - unfold imagePrompt. apply includes_app_mid.
  - unfold imagePrompt. rewrite !app_assoc.
    rewrite <- (app_assoc _ (getStyleInstructions styleId)). apply includes_app_mid.
  - intros Hn. unfold imagePrompt. f_equal. f_equal. f_equal.
    unfold getStyleInstructions.
    destruct (jsstring_eqb styleId (js "tech")) eqn:E1;
      [apply jsstring_eqb_true in E1; subst; exfalso; apply Hn; simpl; auto|].
    destruct (jsstring_eqb styleId (js "retro")) eqn:E2;
      [apply jsstring_eqb_true in E2; subst; exfalso; apply Hn; simpl; auto|].
    destruct (jsstring_eqb styleId (js "zen")) eqn:E3;
      [apply jsstring_eqb_true in E3; subst; exfalso; apply Hn; simpl; auto|].
    destruct (jsstring_eqb styleId (js "clay")) eqn:E4;
      [apply jsstring_eqb_true in E4; subst; exfalso; apply Hn; simpl; auto|].
    vm_compute. reflexivity.
Qed.

Lemma hand_loop_success env k :
  forall i n e uri, (k < n)%nat ->
  (forall j, (j < k)%nat -> exists e', snd (hand_attempt env (i + j)) = Throw e') ->
  snd (hand_attempt env (i + k)) = Ok uri ->
  snd (hand_loop env i n e) = Ok uri /\
  sleeps (fst (hand_loop env i n e)) = map (fun j => 1000 * (i + j + 1))%nat (seq 0 k) /\
  attempts (fst (hand_loop env i n e)) = S k.
Proof.
  induction k as [|k IH]; intros i n e uri Hn Hf Hk; destruct n as [|n]; try lia.
  - rewrite Nat.add_0_r in Hk. simpl.
    pose proof (hand_attempt_path env i) as P.
    destruct (hand_attempt env i) as [ev r]. cbn [fst snd] in *. subst ev r.
    unfold attempts. destruct (includes _ _); repeat split.
  - destruct (Hf 0%nat ltac:(lia)) as [e0 H0]. rewrite Nat.add_0_r in H0.
    destruct (IH (S i) n e0 uri ltac:(lia)) as (IH1 & IH2 & IH3).
    { intros j Hj. destruct (Hf (S j) ltac:(lia)) as [e' He']. exists e'.
      rewrite <- He'. do 2 f_equal. lia. }
    { rewrite <- Hk. do 2 f_equal. lia. }
    simpl. pose proof (hand_attempt_path env i) as P.
    destruct (hand_attempt env i) as [ev r]. cbn [fst snd] in *. subst ev r.
    destruct (hand_loop env (S i) n e0) as [evs r']. cbn [fst snd] in *.
    split; [exact IH1|]. split.
    + unfold sleeps in *. destruct (includes _ _); cbn [flat_map app]; rewrite IH2;
        cbn [seq map]; rewrite <- seq_shift, map_map;
        (f_equal; [lia | apply map_ext; intros j; lia]).
    + unfold attempts in *. destruct (includes _ _); simpl; rewrite IH3; reflexivity.
Qed.

(** X2. When attempt [k] (0-based, [k < 3]) of processHand is the first
    that succeeds, processHand returns its data URI after exactly [k + 1]
    attempts, having waited 1s, 2s, ... after each of the [k] failures
    only. *)
Theorem processHand_success_at (env : ImageEnv) (k : nat) (uri : jsstring) :
  (k < 3)%nat ->
  (forall j, (j < k)%nat -> exists e, snd (hand_attempt env j) = Throw e) ->
  snd (hand_attempt env k) = Ok uri ->
  snd (processHand env) = Ok uri /\
  sleeps (fst (processHand env)) = map (fun j => 1000 * (j + 1))%nat (seq 0 k) /\
  attempts (fst (processHand env)) = S k.
Proof.
  intros Hk Hf Hs. unfold processHand, maxRetries.
  apply (hand_loop_success env k 0 3 Undefined uri Hk); assumption.
Qed.

Lemma processHand_success_at_witness :
  snd (processHand sample_env_second) = Ok (js "data:image/png;base64,AAAA") /\
  sleeps (fst (processHand sample_env_second)) = map (fun j => 1000 * (j + 1))%nat (seq 0 1) /\
  attempts (fst (processHand sample_env_second)) = 2%nat.
Proof.
  apply (processHand_success_at sample_env_second 1).
  - lia.
  - intros j Hj. assert (j = 0%nat) as -> by lia. eexists. vm_compute. reflexivity.
  - vm_compute. reflexivity.
Defined.

(** X3. With a model id without "gemini" and no (or an empty) API_KEY,
    every attempt fails before any HTTP request: processHand makes three
    prediction-path attempts, waits 1s, 2s and 3s, and throws
    Error("Missing API_KEY for Imagen request"), whatever the external
    calls would have answered. *)
Theorem processHand_missing_key (env : ImageEnv) g f :
  includes (toLowerCase (IMAGE_MODEL env)) (js "gemini") = false ->
  truthy (env_API_KEY env) = None ->
  processHand env =
    ([PredictPath 0; Sleep 1000; PredictPath 1; Sleep 2000; PredictPath 2; Sleep 3000],
     Throw (Error (js "Missing API_KEY for Imagen request"))) /\
  processHand {| env_IMAGE_MODEL := env_IMAGE_MODEL env; env_API_KEY := env_API_KEY env;
                 generateContent := g; fetch_predict := f |} = processHand env.
Proof.
  intros Hg Hk.
  assert (Ha : forall env', IMAGE_MODEL env' = IMAGE_MODEL env ->
                 env_API_KEY env' = env_API_KEY env -> forall i,
                 hand_attempt env' i =
                 (PredictPath i, Throw (Error (js "Missing API_KEY for Imagen request")))).
  { intros env' Hm Hk' i. unfold hand_attempt. rewrite Hm, Hg.
    unfold fetchImagen. rewrite Hk', Hk. reflexivity. }
  assert (Hrun : forall env', IMAGE_MODEL env' = IMAGE_MODEL env ->
                   env_API_KEY env' = env_API_KEY env ->
                   processHand env' =
                   ([PredictPath 0; Sleep 1000; PredictPath 1; Sleep 2000; PredictPath 2; Sleep 3000],
                    Throw (Error (js "Missing API_KEY for Imagen request")))).
  { intros env' Hm Hk'. unfold processHand, maxRetries. cbn [hand_loop].
    rewrite !(Ha env' Hm Hk'). reflexivity. }
  split; [apply Hrun; reflexivity|].
  rewrite !Hrun; reflexivity.
Qed.

Lemma processHand_missing_key_witness :
  processHand sample_env_no_key =
    ([PredictPath 0; Sleep 1000; PredictPath 1; Sleep 2000; PredictPath 2; Sleep 3000],
     Throw (Error (js "Missing API_KEY for Imagen request"))) /\
  processHand {| env_IMAGE_MODEL := env_IMAGE_MODEL sample_env_no_key;
                 env_API_KEY := env_API_KEY sample_env_no_key;
                 generateContent := fun _ => Ok None;
                 fetch_predict := fun _ => Throw (Transport (js "offline")) |}
  = processHand sample_env_no_key.
Proof.
  apply processHand_missing_key; vm_compute; reflexivity.
Defined.

(** *** The batch phases over the whole store *)

Lemma find_self (l : list NoteUnit) n :
  NoDup (map id l) -> In n l -> find (fun w => jsstring_eqb (id w) (id n)) l = Some n.
Proof.
  induction l as [|a l IH]; intros Hnd Hin; [destruct Hin|].
  simpl in Hnd. inversion Hnd as [|? ? Hna Hnd']; subst. simpl.
  destruct Hin as [<-|Hin]; [rewrite jsstring_eqb_refl; reflexivity|].
  destruct (jsstring_eqb (id a) (id n)) eqn:E; [|apply IH; assumption].
  apply jsstring_eqb_true in E. exfalso. apply Hna. rewrite E. apply in_map. exact Hin.
Qed.

Lemma interleave_cons_nil {A} (ls : list (list A)) tr :
  interleave ls tr -> interleave ([] :: ls) tr.
Proof.
  induction 1 as [ls Hn | pre u rest post tr _ IH].
  - constructor. constructor; [reflexivity | exact Hn].
  - apply (il_pick ([] :: pre)). exact IH.
Qed.

(** Running the tasks one after another is one of the interleavings. *)
Lemma interleave_concat {A} (ls : list (list A)) : interleave ls (List.concat ls).
Proof.
  induction ls as [|a ls IH]; [constructor; constructor|].
  induction a as [|x a IHa]; simpl.
  - apply interleave_cons_nil. exact IH.
  - apply (il_pick [] x a ls). exact IHa.
Qed.

Lemma designNote_own (synth : NoteUnit -> res jsstring) :
  own_task (fun w => designNote w (synth w)).
Proof.
  intros w. unfold designNote.
  destruct (negb _); [constructor|]. destruct (synth w); repeat constructor.
Qed.

(** X4. handleBatchDesign, for every interleaving of the designNote calls
    on notes with distinct ids: a note without a (truthy) outline is left
    as it was; a note whose processRightBrain call returns ends in
    ReviewPrompt with that prompt and [isProcessing] false; a note whose
    call throws stays with [isProcessing] true and nothing else changed. *)
Theorem handleBatchDesign_outcome (notes : list NoteUnit)
  (synth : NoteUnit -> res jsstring) (tr : list update) :
  NoDup (map id notes) ->
  interleave (map (fun w => designNote w (synth w)) notes) tr ->
  apply_updates notes tr = map (fun n => design_outcome n n (synth n)) notes.
Proof.
  intros Hnd Hi. rewrite (wave_apply _ _ _ _ (designNote_own synth) Hnd Hi).
  apply map_ext_in. intros n Hn. rewrite find_self by assumption.
  unfold designNote, design_outcome.
  destruct (structure_truthy (structure n)); [|reflexivity].
  destruct (synth n); reflexivity.
Qed.

Lemma handleBatchDesign_outcome_witness :
  let synth := fun _ : NoteUnit => Ok (js "draw it") in
  let tr := List.concat (map (fun w => designNote w (synth w)) sample_design_store) in
  apply_updates sample_design_store tr =
  map (fun n => design_outcome n n (synth n)) sample_design_store.
Proof.
  intros synth tr. apply handleBatchDesign_outcome.
  - vm_compute. repeat constructor; simpl; intuition discriminate.
  - apply interleave_concat.
Defined.

Lemma paintNote_patches n w r :
  apply_patches n (paintNote w r) = paint_outcome n w r.
Proof.
  unfold paintNote, paint_outcome.
  destruct (generatedPrompt w) as [[|c s]|]; [reflexivity| |reflexivity].
  destruct r; reflexivity.
Qed.

Lemma paint_outcome_id n w r : id (paint_outcome n w r) = id n.
Proof.
  unfold paint_outcome. destruct (generatedPrompt w) as [[|c s]|]; try reflexivity.
  destruct r; reflexivity.
Qed.

Lemma NoDup_app_disjoint {A} (l l' : list A) x :
  NoDup (l ++ l') -> In x l -> ~ In x l'.
Proof.
  induction l as [|a l IH]; intros Hnd Hin; [destruct Hin|].
  simpl in Hnd. inversion Hnd as [|? ? Hna Hnd']; subst.
  destruct Hin as [<-|Hin]; [intros H; apply Hna, in_or_app; right; exact H|].
  apply IH; assumption.
Qed.

Lemma find_app {A} (f : A -> bool) l l' :
  find f (l ++ l') = match find f l with Some a => Some a | None => find f l' end.
Proof. induction l as [|a l IH]; simpl; [reflexivity|]. destruct (f a); auto. Qed.

(** The waves of the rendering phase, one after another. *)
Lemma paint_chunks_apply (hand : NoteUnit -> res jsstring) store cs store' :
  paint_chunks hand store cs store' -> NoDup (map id (List.concat cs)) ->
  store' = map (fun n => match find (fun w => jsstring_eqb (id w) (id n)) (List.concat cs) with
                        | Some w => paint_outcome n w (hand w)
                        | None => n
                        end) store.
Proof.
  induction 1 as [store | store c cs mid store' [tr [Hi ->]] _ IH]; intros Hnd.
  - simpl. symmetry. apply map_id.
  - simpl in Hnd. rewrite map_app in Hnd.
    rewrite IH by (eapply NoDup_app_remove_l; exact Hnd).
    rewrite (wave_apply _ _ _ _ (paintNote_own hand) (NoDup_app_remove_r _ _ Hnd) Hi).
    rewrite map_map. apply map_ext. intros n. simpl List.concat. rewrite find_app.
    destruct (find (fun w => jsstring_eqb (id w) (id n)) c) as [w|] eqn:Ef;
      [|reflexivity].
    rewrite paintNote_patches, paint_outcome_id.
    destruct (find (fun w0 => jsstring_eqb (id w0) (id n)) (List.concat cs)) as [w'|] eqn:Ef';
      [|reflexivity].
    exfalso. apply find_some in Ef as [Hw Ew]. apply find_some in Ef' as [Hw' Ew'].
    apply jsstring_eqb_true in Ew, Ew'.
    apply (NoDup_app_disjoint _ _ (id w) Hnd); [apply in_map; exact Hw|].
    rewrite Ew, <- Ew'. apply in_map. exact Hw'.
Qed.

(** X5. handleBatchPaint over notes with distinct ids, whatever the
    interleavings inside its waves of three: every note ends as its own
    paintNote call left it: Done with its image when processHand returned,
    [isProcessing] false and error "绘制失败" when it threw, and unchanged
    when it has no (or an empty) generatedPrompt. *)
Theorem handleBatchPaint_outcome (hand : NoteUnit -> res jsstring)
  (notes store' : list NoteUnit) :
  NoDup (map id notes) -> handleBatchPaint hand notes store' ->
  store' = map (fun n => paint_outcome n n (hand n)) notes.
Proof.
  intros Hnd Hp. unfold handleBatchPaint in Hp.
  destruct (chunk3_shape notes) as [Hc _].
  rewrite (paint_chunks_apply _ _ _ _ Hp) by (rewrite Hc; exact Hnd).
  rewrite Hc. apply map_ext_in. intros n Hn. rewrite find_self by assumption.
  reflexivity.
Qed.

Lemma handleBatchPaint_outcome_witness :
  let store' := apply_updates sample_store
                  (List.concat (map (fun w => paintNote w (sample_hand w)) sample_store)) in
  store' = map (fun n => paint_outcome n n (sample_hand n)) sample_store.
Proof.
  intros store'. apply (handleBatchPaint_outcome sample_hand sample_store store').
  - vm_compute. repeat constructor; simpl; intuition discriminate.
  - unfold handleBatchPaint.
    replace (chunk sample_store 3) with [sample_store] by reflexivity.
    eapply pc_cons; [|apply pc_nil].
    exists (List.concat (map (fun w => paintNote w (sample_hand w)) sample_store)).
    split; [apply interleave_concat | reflexivity].
Defined.

(** X6. updateNote never adds, removes or reorders notes and never changes
    a note's id, order or originalText, so neither does any sequence of
    its calls; a call whose id names no note leaves the store as it was. *)
Theorem apply_updates_frame (notes : list NoteUnit) (us : list update) :
  map id (apply_updates notes us) = map id notes /\
  map order (apply_updates notes us) = map order notes /\
  map originalText (apply_updates notes us) = map originalText notes /\
  (forall k p, ~ In k (map id notes) -> updateNote k p notes = notes).
Proof.
  assert (Hf : forall n us', id (apply_patches n us') = id n /\
                             order (apply_patches n us') = order n /\
                             originalText (apply_patches n us') = originalText n).
  { intros n us'. revert n. induction us' as [|u us' IH]; intros n; [auto|].
    simpl. destruct (IH (apply_patch n (snd u))) as (H1 & H2 & H3).
    unfold apply_patches in *. rewrite H1, H2, H3. auto. }
  rewrite apply_updates_map, !map_map. split; [|split; [|split]].
  - apply map_ext. intros n. apply Hf.
  - apply map_ext. intros n. apply Hf.
  - apply map_ext. intros n. apply Hf.
  - intros k p Hk. unfold updateNote. rewrite <- (map_id notes) at 2.
    apply map_ext_in. intros n Hn.
    destruct (jsstring_eqb (id n) k) eqn:E; [|reflexivity].
    apply jsstring_eqb_true in E. exfalso. apply Hk. rewrite <- E. apply in_map. exact Hn.
Qed.

(** *** handleBatchDownload *)

Lemma uint_digits_inj d d' : uint_digits d = uint_digits d' -> d = d'.
Proof.
  revert d'; induction d; intros d' H; destruct d'; simpl in H;
    try discriminate; try reflexivity;
    injection H as H; f_equal; apply IHd; exact H.
Qed.

Lemma nat_to_js_inj m n : nat_to_js m = nat_to_js n -> m = n.
Proof. intros H. apply DecimalNat.Unsigned.to_uint_inj, uint_digits_inj, H. Qed.

Lemma download_name_inj m n : download_name m = download_name n -> m = n.
Proof.
  unfold download_name. intros H. apply app_inv_head in H. apply app_inv_tail in H.
  apply nat_to_js_inj in H. lia.
Qed.

Lemma download_schedule_props i notes :
  let s := download_schedule i notes in
  map (fun t => snd (fst t)) s =
    flat_map (fun n => match truthy (finalImage n) with Some img => [img] | None => [] end) notes /\
  Sorted lt (map (fun t => fst (fst t)) s) /\
  (forall t, In t s -> exists j, (i <= j)%nat /\ fst (fst t) = (j * 500)%nat /\ snd t = download_name j) /\
  NoDup (map snd s).
Proof.
  revert i. induction notes as [|note rest IH]; intros i; simpl.
  - repeat split; [constructor | intros t [] | constructor].
  - destruct (IH (S i)) as (H1 & H2 & H3 & H4).
    destruct (truthy (finalImage note)) as [img|]; simpl.
    + split; [f_equal; exact H1|]. split; [|split].
      * constructor; [exact H2|].
        destruct (download_schedule (S i) rest) as [|t r] eqn:Es; simpl; constructor.
        destruct (H3 t (or_introl eq_refl)) as (j & Hj & Hd & _). rewrite Hd. nia.
      * intros t [<-|Ht]; [exists i; simpl; repeat split; lia|].
        destruct (H3 t Ht) as (j & Hj & Hd & Hn). exists j. repeat split; auto; lia.
      * constructor; [|exact H4]. intros Hin. apply in_map_iff in Hin as (t & Hn & Ht).
        destruct (H3 t Ht) as (j & Hj & _ & Hn'). rewrite Hn' in Hn.
        apply download_name_inj in Hn. lia.
    + split; [exact H1|]. split; [exact H2|]. split; [|exact H4].
      intros t Ht. destruct (H3 t Ht) as (j & Hj & Hd & Hn). exists j. repeat split; auto; lia.
Qed.

(** X7. handleBatchDownload schedules one download per note with a
    (truthy) finalImage, in note order, each link pointing at that image;
    the delays strictly increase (500 ms times the note's position) and no
    two downloads get the same file name. *)
Theorem handleBatchDownload_schedule (notes : list NoteUnit) :
  let s := handleBatchDownload notes in
  map (fun t => snd (fst t)) s =
    flat_map (fun n => match truthy (finalImage n) with Some img => [img] | None => [] end) notes /\
  Sorted lt (map (fun t => fst (fst t)) s) /\
  NoDup (map snd s).
Proof.
  destruct (download_schedule_props 0 notes) as (H1 & H2 & _ & H4).
  repeat split; assumption.
Qed.

(** *** handleSplit and handleOrganize *)

(** X8. The chat message echoing the user's text in handleSplit is at most
    103 code units long: the whole text when it has at most 100, otherwise
    its first 100 code units followed by "...". *)
Theorem split_preview_bounds (inputText : jsstring) :
  (List.length (split_preview inputText) <= 103)%nat /\
  ((List.length inputText <= 100)%nat -> split_preview inputText = inputText) /\
  ((100 < List.length inputText)%nat ->
   firstn 100 (split_preview inputText) = firstn 100 inputText /\
   List.length (split_preview inputText) = 103%nat).
Proof.
  unfold split_preview.
  destruct (Nat.ltb_spec 100 (List.length inputText)) as [Hl|Hl].
  - assert (Hf : List.length (firstn 100 inputText) = 100%nat)
      by (rewrite length_firstn; lia).
    assert (Hd : List.length (js "...") = 3%nat) by reflexivity.
    rewrite length_app, Hf, Hd. split; [lia|]. split; [lia|]. intros _. split; [|reflexivity].
    rewrite firstn_app, Hf, Nat.sub_diag, firstn_O, app_nil_r, firstn_firstn.
    reflexivity.
  - rewrite app_nil_r, firstn_all2 by lia. split; [lia|]. split; [reflexivity | lia].
Qed.

Lemma processSplitBrain_nonempty JSON_parse reply text :
  exists parts, processSplitBrain JSON_parse reply text = Ok parts /\ parts <> [].
Proof.
  unfold processSplitBrain, split_try.
  destruct reply as [r|e]; cbn [bind]; [|eexists; split; [reflexivity|discriminate]].
  unfold json_parse. destruct (JSON_parse (clean_reply r (js "[]"))) as [v|]; cbn [bind];
    [|eexists; split; [reflexivity|discriminate]].
  destruct v as [| | | |[|p ps]|]; try (eexists; split; [reflexivity|discriminate]).
  destruct (validParts (p :: ps)) as [|v vs]; eexists; split; [reflexivity|discriminate| |];
    [reflexivity|discriminate].
Qed.

Lemma new_notes_shape i uids parts :
  map originalText (new_notes i uids parts) = parts /\
  map order (new_notes i uids parts) = seq (S i) (List.length parts) /\
  Forall (fun n => stage n = Organizing /\ isProcessing n = false /\ structure n = None)
    (new_notes i uids parts).
Proof.
  revert i uids. induction parts as [|t parts IH]; intros i uids; simpl.
  - repeat split. constructor.
  - destruct (IH (S i) (tl uids)) as (H1 & H2 & H3).
    rewrite H1, H2. repeat split. constructor; [repeat split | exact H3].
Qed.

(** X9. handleSplit always creates at least one note, whatever the
    completion call answers: the notes hold the segments processSplitBrain
    returns, in order, numbered 1, 2, ..., each in stage Organizing, not
    processing and without an outline. *)
Theorem handleSplit_creates_notes (JSON_parse : jsstring -> option jvalue)
  (reply : res (option jsstring)) (inputText : jsstring) (uids : list jsstring) :
  exists parts,
    processSplitBrain JSON_parse reply inputText = Ok parts /\
    handleSplit_notes uids parts <> [] /\
    map originalText (handleSplit_notes uids parts) = parts /\
    map order (handleSplit_notes uids parts) = seq 1 (List.length parts) /\
    Forall (fun n => stage n = Organizing /\ isProcessing n = false /\ structure n = None)
      (handleSplit_notes uids parts).
Proof.
  destruct (processSplitBrain_nonempty JSON_parse reply inputText) as (parts & Hp & Hn).
  exists parts. destruct (new_notes_shape 0 uids parts) as (H1 & H2 & H3).
  split; [exact Hp|]. split; [|split; [exact H1|split; [exact H2|exact H3]]].
  unfold handleSplit_notes. destruct parts; [contradiction|discriminate].
Qed.

(** X10. handleOrganize does nothing for a blank input or without an API
    key; otherwise, once getAI succeeds, it always ends in ReviewStructure
    with one note (order 1, the trimmed input, the outline
    processLeftBrain returned), even when the completion call fails: its
    "整理失败" branch is then never taken. *)
Theorem handleOrganize_outcome (JSON_parse : jsstring -> option jvalue) (uid : jsstring)
  (reply : res (option jsstring)) (st : AppState) :
  (trim (app_rawText st) = [] ->
   forall hasKey getAI, handleOrganize JSON_parse hasKey getAI uid reply st = st) /\
  (forall getAI, handleOrganize JSON_parse false getAI uid reply st = st) /\
  (trim (app_rawText st) <> [] ->
   exists r, processLeftBrain JSON_parse reply = Ok r /\
   handleOrganize JSON_parse true (Ok tt) uid reply st =
     {| app_rawText := [];
        app_notes := [{| id := uid; order := 1; originalText := trim (app_rawText st);
                         stage := ReviewStructure; isProcessing := false;
                         structure := Some r; generatedPrompt := None;
                         finalImage := None; error := None |}];
        app_stage := ReviewStructure |}).
Proof.
  unfold handleOrganize. split; [|split].
  - intros H hasKey getAI. rewrite H. reflexivity.
  - intros getAI. destruct (trim (app_rawText st)); reflexivity.
  - intros H. destruct (processLeftBrain_ok JSON_parse reply) as [r Hr].
    exists r. split; [exact Hr|]. cbn [bind]. rewrite Hr.
    destruct (trim (app_rawText st)); [contradiction|reflexivity].
Qed.

(** *** The progress timer of handleOrganize and handleSplit *)

Lemma map_res_pointwise {A B} (f : A -> res B) (g : A -> B) (l : list A) :
  (forall a, In a l -> f a = Ok (g a)) -> map_res f l = Ok (map g l).
Proof.
  induction l as [|a l IH]; intros H; simpl; [reflexivity|].
  rewrite (H a (or_introl eq_refl)), IH by (intros b Hb; apply H; right; exact Hb).
  reflexivity.
Qed.

Lemma map_res_related {A B C} (f : A -> res B) (c : B -> C) (c' : A -> C) (l : list A) :
  (forall a, In a l -> exists b, f a = Ok b /\ c b = c' a) ->
  exists l', map_res f l = Ok l' /\ map c l' = map c' l.
Proof.
  induction l as [|a l IH]; intros H; simpl; [exists []; split; reflexivity|].
  destruct (H a (or_introl eq_refl)) as (b & Hb & Hc).
  destruct IH as (l' & Hl & Hm); [intros x Hx; apply H; right; exact Hx|].
  rewrite Hb, Hl. exists (b :: l'). simpl. rewrite Hc, Hm. split; reflexivity.
Qed.

Lemma every_completed_done (steps : list (option ProcessStep)) :
  every_completed (map (fun s => Some (with_status s Completed)) steps) = Ok true.
Proof. induction steps as [|s r IH]; [reflexivity|]. simpl. destruct s; exact IH. Qed.

Lemma progress_item_complete pid item :
  progress_item pid (complete_item pid item) = Ok (complete_item pid item).
Proof.
  unfold progress_item, complete_item.
  destruct (jsstring_eqb (ci_id item) pid) eqn:E; [|rewrite E; reflexivity].
  destruct (ci_steps item) as [steps|] eqn:Es; [|rewrite E, Es; reflexivity].
  simpl. rewrite E. cbn [bind]. rewrite every_completed_done. reflexivity.
Qed.

Lemma complete_item_after_tick pid item s0 s1 s2 :
  ci_steps item = Some [Some s0; Some s1; Some s2] ->
  exists i', progress_item pid item = Ok i' /\ complete_item pid i' = complete_item pid item.
Proof.
  intros Hs. unfold progress_item.
  destruct (jsstring_eqb (ci_id item) pid) eqn:E; [|exists item; split; reflexivity].
  rewrite Hs. simpl.
  destruct (is_completed (ps_status s0)), (is_completed (ps_status s1)),
    (is_completed (ps_status s2)); cbn [bind];
    try (exists item; split; reflexivity);
    (eexists; split; [reflexivity|]);
    unfold complete_item; simpl; rewrite E, Hs; reflexivity.
Qed.

(** X11. The progress timer cannot undo the completion of a process log:
    a tick that fires after the call returned leaves the completed log as
    it is, and a tick that fires before (on logs of three steps, as the
    code builds them) is overwritten by the completion, whatever the steps
    held; the log then shows every step completed. *)
Theorem progress_timer_race (pid : jsstring) (h : list ChatItem)
  (H3 : forall item, In item h -> jsstring_eqb (ci_id item) pid = true ->
        exists s0 s1 s2, ci_steps item = Some [Some s0; Some s1; Some s2]) :
  progress_tick pid (complete_log pid h) = Ok (complete_log pid h) /\
  (exists h', progress_tick pid h = Ok h' /\ complete_log pid h' = complete_log pid h) /\
  (forall item, In item (complete_log pid h) -> jsstring_eqb (ci_id item) pid = true ->
   exists steps, ci_steps item = Some steps /\
   Forall (fun s => exists p, s = Some p /\ ps_status p = Some Completed) steps).
Proof.
  split; [|split].
  - unfold progress_tick, complete_log.
    rewrite (map_res_pointwise _ (fun x => x)); [rewrite map_id; reflexivity|].
    intros a Ha. apply in_map_iff in Ha as (b & <- & _). apply progress_item_complete.
  - apply map_res_related. intros a Ha.
    destruct (jsstring_eqb (ci_id a) pid) eqn:E.
    + destruct (H3 a Ha E) as (s0 & s1 & s2 & Hs). exact (complete_item_after_tick pid a s0 s1 s2 Hs).
    + exists a. unfold progress_item, complete_item. rewrite E. split; reflexivity.
  - intros item Hi Ei. unfold complete_log in Hi. apply in_map_iff in Hi as (a & <- & Ha).
    unfold complete_item in *. destruct (jsstring_eqb (ci_id a) pid) eqn:E.
    + destruct (H3 a Ha E) as (s0 & s1 & s2 & Hs). rewrite Hs.
      eexists; split; [reflexivity|].
      repeat constructor; (eexists; split; [reflexivity|reflexivity]).
    + rewrite E in Ei. discriminate.
Qed.

Lemma progress_timer_race_witness :
  progress_tick (js "p") (complete_log (js "p") sample_log) =
    Ok (complete_log (js "p") sample_log).
Proof.
  apply (progress_timer_race (js "p") sample_log).
  intros item [<-|[]] _. do 3 eexists. reflexivity.
Defined.

(** *** getActiveCardInfo *)

Lemma findIndex_spec {A} (p : A -> bool) (l : list A) :
  (findIndex p l = (-1)%Z /\ forall a, In a l -> p a = false) \/
  (exists k a, findIndex p l = Z.of_nat k /\ nth_error l k = Some a /\ p a = true /\
   forall j b, (j < k)%nat -> nth_error l j = Some b -> p b = false).
Proof.
  induction l as [|a r IH]; simpl.
  - left. split; [reflexivity | intros _ []].
  - destruct (p a) eqn:Ea.
    + right. exists 0%nat, a. repeat split; auto. intros j b Hj. lia.
    + destruct IH as [[Hr Hall]|(k & b & Hk & Hn & Hb & Hbefore)].
      * left. rewrite Hr. split; [reflexivity|]. intros x [<-|Hx]; auto.
      * right. exists (S k), b. rewrite Hk.
        replace (Z.of_nat k =? -1)%Z with false by lia.
        repeat split; auto; [lia|].
        intros [|j] c Hj Hc; simpl in Hc; [congruence|]. apply (Hbefore j); auto; lia.
Qed.

(** X12. getActiveCardInfo never fails: on an empty list it gives index -1
    and no card; otherwise it gives an index of the list and a card, the
    index of the first note being processed when there is one and of the
    last note otherwise. *)
Theorem getActiveCardInfo_index (notes : list NoteUnit) :
  exists i t, getActiveCardInfo notes = Ok (i, t) /\
  (notes = [] -> i = (-1)%Z /\ t = CardNone) /\
  (notes <> [] -> (0 <= i < Z.of_nat (List.length notes))%Z /\ t <> CardNone) /\
  (forall k n, nth_error notes k = Some n -> isProcessing n = true ->
   (forall j m, (j < k)%nat -> nth_error notes j = Some m -> isProcessing m = false) ->
   i = Z.of_nat k) /\
  ((forall n, In n notes -> isProcessing n = false) ->
   i = (Z.of_nat (List.length notes) - 1)%Z).
Proof.
  destruct notes as [|n0 rest] eqn:En.
  - exists (-1)%Z, CardNone. repeat split; try reflexivity; try congruence.
    intros k n Hn. destruct k; discriminate.
  - rewrite <- En. assert (Hne : notes <> []) by (rewrite En; discriminate).
    assert (Hg : getActiveCardInfo notes =
      let processingIndex := findIndex isProcessing notes in
      if negb (processingIndex =? -1)%Z then
        match nth_error notes (Z.to_nat processingIndex) with
        | None => Throw TypeError
        | Some note =>
            if negb (structure_truthy (structure note)) then Ok (processingIndex, CardSplit)
            else if negb (str_truthy (generatedPrompt note)) then Ok (processingIndex, CardStructure)
            else if negb (str_truthy (finalImage note)) then Ok (processingIndex, CardPrompt)
            else Ok (processingIndex, CardImage)
        end
      else
        let lastNote := last notes n0 in
        if str_truthy (finalImage lastNote) then Ok ((Z.of_nat (List.length notes) - 1)%Z, CardImage)
        else if str_truthy (generatedPrompt lastNote) then Ok ((Z.of_nat (List.length notes) - 1)%Z, CardPrompt)
        else if structure_truthy (structure lastNote) then Ok ((Z.of_nat (List.length notes) - 1)%Z, CardStructure)
        else Ok ((Z.of_nat (List.length notes) - 1)%Z, CardSplit))
      by (rewrite En; reflexivity).
    rewrite Hg. cbv zeta.
    assert (Hlen : (1 <= List.length notes)%nat) by (rewrite En; simpl; lia).
    destruct (findIndex_spec isProcessing notes) as [[Hf Hall]|(k & a & Hf & Hn & Ha & Hbefore)];
      rewrite Hf.
    + simpl.
      assert (Hmain : forall t, t <> CardNone ->
        exists i t', Ok ((Z.of_nat (List.length notes) - 1)%Z, t) = Ok (i, t') /\
        (notes = [] -> i = (-1)%Z /\ t' = CardNone) /\
        (notes <> [] -> (0 <= i < Z.of_nat (List.length notes))%Z /\ t' <> CardNone) /\
        (forall k n, nth_error notes k = Some n -> isProcessing n = true ->
         (forall j m, (j < k)%nat -> nth_error notes j = Some m -> isProcessing m = false) ->
         i = Z.of_nat k) /\
        ((forall n, In n notes -> isProcessing n = false) ->
         i = (Z.of_nat (List.length notes) - 1)%Z)).
      { intros t Ht. exists (Z.of_nat (List.length notes) - 1)%Z, t.
        split; [reflexivity|]. split; [intros; contradiction|]. split; [intros _; split; [lia|exact Ht]|].
        split; [|intros _; reflexivity].
        intros k n Hk Hp _. apply nth_error_In in Hk. rewrite (Hall n Hk) in Hp. discriminate. }
      destruct (str_truthy (finalImage (last notes n0)));
        [|destruct (str_truthy (generatedPrompt (last notes n0)));
          [|destruct (structure_truthy (structure (last notes n0)))]];
        apply Hmain; discriminate.
    + replace (negb (Z.of_nat k =? -1)%Z) with true by lia. rewrite Nat2Z.id, Hn.
      assert (Hk : (k < List.length notes)%nat) by (apply nth_error_Some; congruence).
      assert (Hmain : forall t, t <> CardNone ->
        exists i t', Ok (Z.of_nat k, t) = Ok (i, t') /\
        (notes = [] -> i = (-1)%Z /\ t' = CardNone) /\
        (notes <> [] -> (0 <= i < Z.of_nat (List.length notes))%Z /\ t' <> CardNone) /\
        (forall k n, nth_error notes k = Some n -> isProcessing n = true ->
         (forall j m, (j < k)%nat -> nth_error notes j = Some m -> isProcessing m = false) ->
         i = Z.of_nat k) /\
        ((forall n, In n notes -> isProcessing n = false) ->
         i = (Z.of_nat (List.length notes) - 1)%Z)).
      { intros t Ht. exists (Z.of_nat k), t.
        split; [reflexivity|]. split; [intros; contradiction|]. split; [intros _; split; [lia|exact Ht]|].
        split.
        - intros k' n Hk' Hp Hb'.
          destruct (Nat.lt_trichotomy k k') as [Hlt|[Heq|Hgt]].
          + rewrite (Hb' k a Hlt Hn) in Ha. discriminate.
          + subst. reflexivity.
          + rewrite (Hbefore k' n Hgt Hk') in Hp. discriminate.
        - intros Hall. apply nth_error_In in Hn. rewrite (Hall a Hn) in Ha. discriminate. }
      destruct (negb (structure_truthy (structure a)));
        [|destruct (negb (str_truthy (generatedPrompt a)));
          [|destruct (negb (str_truthy (finalImage a)))]];
        apply Hmain; discriminate.
Qed.

(** *** The module edits of BlockEditor *)

Lemma filter_index_from {A} (index start : nat) (ms : list A) :
  map snd (filter (fun '(i, _) => negb (i =? index)%nat) (combine (seq start (List.length ms)) ms)) =
  if (index <? start)%nat then ms
  else firstn (index - start) ms ++ skipn (S (index - start)) ms.
Proof.
  revert start. induction ms as [|x r IH]; intros start; simpl.
  - destruct (index <? start)%nat; [reflexivity|]. rewrite firstn_nil. reflexivity.
  - destruct (Nat.eqb_spec start index) as [<-|Hne]; simpl.
    + rewrite IH, Nat.sub_diag. replace (start <? S start)%nat with true by (symmetry; apply Nat.ltb_lt; lia).
      replace (start <? start)%nat with false by (symmetry; apply Nat.ltb_ge; lia). reflexivity.
    + rewrite IH. destruct (Nat.ltb_spec index start) as [Hl|Hl].
      * replace (index <? S start)%nat with true by (symmetry; apply Nat.ltb_lt; lia). reflexivity.
      * replace (index <? S start)%nat with false by (symmetry; apply Nat.ltb_ge; lia).
        replace (index - start)%nat with (S (index - S start)) by lia. reflexivity.
Qed.

Lemma with_modules_self st ms : modules st = Some ms -> with_modules st ms = st.
Proof. destruct st; simpl; intros ->; reflexivity. Qed.

(** X13. deleteModule removes exactly the module at the given position
    (nothing when the position is past the end), and deleting the module
    addModule just appended gives back the structure as it was. *)
Theorem deleteModule_addModule (st : LeftBrainData) (ms : list (option ContentModule))
  (now : jsstring) (Hm : modules st = Some ms) :
  (forall index, deleteModule st index =
     Ok (with_modules st (firstn index ms ++ skipn (S index) ms))) /\
  (bind (addModule st now) (fun st' => deleteModule st' (List.length ms)) = Ok st).
Proof.
  split.
  - intros index. unfold deleteModule. rewrite Hm, filter_index_from, Nat.sub_0_r.
    destruct (Nat.ltb_spec index 0); [lia|reflexivity].
  - unfold addModule. rewrite Hm. cbn [bind]. unfold deleteModule.
    change (modules (with_modules st ?x)) with (Some x). cbv iota beta.
    rewrite filter_index_from, Nat.sub_0_r.
    destruct (Nat.ltb_spec (List.length ms) 0); [lia|].
    rewrite firstn_app, Nat.sub_diag, firstn_all, firstn_O, app_nil_r.
    rewrite skipn_app, skipn_all2 by lia.
    replace (S (List.length ms) - List.length ms)%nat with 1%nat by lia.
    simpl. rewrite app_nil_r.
    replace (with_modules (with_modules st _) ms) with (with_modules st ms)
      by (destruct st; reflexivity).
    rewrite with_modules_self by exact Hm. reflexivity.
Qed.

Lemma deleteModule_addModule_witness :
  deleteModule {| title := None; summary_context := None; visual_theme_keywords := None;
                  modules := Some [None; None] |} 0 =
    Ok {| title := None; summary_context := None; visual_theme_keywords := None;
          modules := Some [None] |}.
Proof.
  apply (deleteModule_addModule
           {| title := None; summary_context := None; visual_theme_keywords := None;
              modules := Some [None; None] |} [None; None] (js "1")).
  reflexivity.
Defined.

Lemma list_set_length {A} (l : list A) i x : List.length (list_set l i x) = List.length l.
Proof. revert i; induction l; intros [|i]; simpl; auto. Qed.

Lemma list_set_here {A} (l : list A) i x :
  (i < List.length l)%nat -> nth_error (list_set l i x) i = Some x.
Proof. revert i; induction l; intros [|i] H; simpl in *; try lia; auto. apply IHl; lia. Qed.

Lemma list_set_other {A} (l : list A) i x j :
  j <> i -> nth_error (list_set l i x) j = nth_error l j.
Proof.
  revert i j; induction l; intros [|i] [|j] H; simpl; auto; try congruence.
Qed.

(** X14. handleModuleChange sets the field of the module at [index]
    (starting from an empty module past the end) and leaves every other
    module as it was; past the end it grows the list to [index + 1], the
    skipped slots left empty. *)
Theorem handleModuleChange_effect (st : LeftBrainData) (ms : list (option ContentModule))
  (index : nat) (field : CMField) (value : jsstring) (Hm : modules st = Some ms) :
  exists ms',
    handleModuleChange st index field value = Ok (with_modules st ms') /\
    List.length ms' = Nat.max (List.length ms) (S index) /\
    nth_error ms' index = Some (Some (set_field (nth index ms None) field value)) /\
    (forall j, j <> index -> (j < List.length ms)%nat -> nth_error ms' j = nth_error ms j) /\
    (forall j, (List.length ms <= j < index)%nat -> nth_error ms' j = Some None).
Proof.
  unfold handleModuleChange. rewrite Hm. eexists. split; [reflexivity|].
  destruct (Nat.ltb_spec index (List.length ms)) as [Hl|Hl].
  - rewrite list_set_length. split; [lia|]. split; [apply list_set_here; exact Hl|].
    split; [intros j Hj _; apply list_set_other; exact Hj | intros j Hj; lia].
  - rewrite nth_overflow by exact Hl.
    rewrite !length_app, repeat_length. simpl. split; [lia|]. split; [|split].
    + rewrite nth_error_app2 by lia. rewrite nth_error_app2 by (rewrite repeat_length; lia).
      rewrite repeat_length. replace (index - List.length ms - (index - List.length ms))%nat with 0%nat by lia.
      reflexivity.
    + intros j _ Hj. apply nth_error_app1. exact Hj.
    + intros j Hj. rewrite nth_error_app2 by lia. rewrite nth_error_app1 by (rewrite repeat_length; lia).
      apply nth_error_repeat. lia.
Qed.

Lemma handleModuleChange_effect_witness :
  exists ms',
    handleModuleChange {| title := None; summary_context := None; visual_theme_keywords := None;
                          modules := Some [None] |} 2 F_heading (js "h") =
      Ok (with_modules {| title := None; summary_context := None; visual_theme_keywords := None;
                          modules := Some [None] |} ms') /\
    List.length ms' = 3%nat /\
    nth_error ms' 2 = Some (Some (set_field None F_heading (js "h"))) /\
    (forall j, j <> 2%nat -> (j < 1)%nat -> nth_error ms' j = nth_error [None] j) /\
    (forall j, (1 <= j < 2)%nat -> nth_error ms' j = Some None).
Proof.
  apply (handleModuleChange_effect
           {| title := None; summary_context := None; visual_theme_keywords := None;
              modules := Some [None] |} [None] 2 F_heading (js "h")).
  reflexivity.
Defined.

(** *** The image proxy *)

(** X15. The proxy takes GEMINI_API_KEY when it is set and non-empty and
    API_KEY otherwise; with neither it makes no upstream request and
    answers 500 "Missing GEMINI_API_KEY/API_KEY". Otherwise it requests
    the same path with [?key=] and that key appended, with the client's
    method, and sends no body for GET and HEAD. *)
Theorem handler_key_and_body (Buffer_from : jsstring -> list N) (env : ProxyEnv)
  (req : VercelRequest) (upstream : UpstreamRequest -> FetchOutcome) :
  (truthy (px_GEMINI_API_KEY env) = None -> truthy (px_API_KEY env) = None ->
   handler Buffer_from env req upstream =
     (None, {| resp_status := 500; resp_headers := [];
               resp_body := SendText (js "Missing GEMINI_API_KEY/API_KEY") |})) /\
  (forall k, (truthy (px_GEMINI_API_KEY env) = Some k \/
              (truthy (px_GEMINI_API_KEY env) = None /\ truthy (px_API_KEY env) = Some k)) ->
   exists u, fst (handler Buffer_from env req upstream) = Some u /\
   up_url u = upstreamUrl k (req_url req) /\ up_method u = req_method req /\
   (jsstring_eqb (req_method req) (js "GET") = true \/
    jsstring_eqb (req_method req) (js "HEAD") = true -> up_body u = None)).
Proof.
  assert (Htt : forall o k, truthy o = Some k -> truthy (Some k) = Some k)
    by (intros [[|c s]|] k H; simpl in H; try discriminate; injection H as <-; reflexivity).
  unfold handler. split.
  - intros HG HA. rewrite HG, HA. reflexivity.
  - intros k Hk.
    assert (Hkey : truthy (match truthy (px_GEMINI_API_KEY env) with
                           | Some k => Some k | None => px_API_KEY env end) = Some k)
      by (destruct Hk as [HG|[HG HA]]; rewrite HG; [exact (Htt _ _ HG)|exact HA]).
    rewrite Hkey. eexists. split; [reflexivity|]. simpl. split; [reflexivity|]. split; [reflexivity|].
    unfold readBody. intros [H|H]; rewrite H; [reflexivity|]. rewrite orb_true_r. reflexivity.
Qed.

(** X16. A request that fetchImagen sends through the default proxy path
    reaches the API at [/v1beta/models/<model>:predict] with the [/api/imagen]
    prefix removed, and with two [key] parameters: the client's and the
    proxy's own appended after it. *)
Theorem fetchImagen_through_proxy (k model apiKey : jsstring) :
  upstreamUrl k (Some (imagen_url (IMAGEN_PROXY None) model apiKey)) =
  TARGET ++ js "/v1beta/models/" ++ model ++ js ":predict?key=" ++ apiKey ++ js "?key=" ++ k.
Proof.
  unfold upstreamUrl, imagen_url, IMAGEN_PROXY, strip_api_prefix. simpl opt_or.
  rewrite prefixb_app, skipn_app, skipn_all2 by reflexivity.
  simpl. rewrite <- !app_assoc. reflexivity.
Qed.

(** *** What processHand resolves to *)

Lemma or_default_nonempty a b : b <> [] -> or_default a b <> [].
Proof. destruct a; simpl; [auto|discriminate]. Qed.

Lemma opt_or_nonempty o b : b <> [] -> opt_or o b <> [].
Proof. destruct o; simpl; [apply or_default_nonempty|auto]. Qed.

Lemma truthy_nonempty o d : truthy o = Some d -> d <> [].
Proof. destruct o as [[|c s]|]; simpl; intros H; try discriminate. injection H as <-. discriminate. Qed.

Lemma first_some_in {A B} (f : A -> option B) l b :
  first_some f l = Some b -> exists a, In a l /\ f a = Some b.
Proof.
  induction l as [|a l IH]; simpl; [discriminate|].
  destruct (f a) eqn:E; intros H.
  - injection H as <-. exists a. auto.
  - destruct (IH H) as (x & Hx & Hf). exists x. auto.
Qed.

Lemma extractInlineImage_nonempty response d m :
  extractInlineImage response = Some (d, m) -> d <> [] /\ m <> [].
Proof.
  unfold extractInlineImage. intros H.
  apply first_some_in in H as (cand & _ & H). apply first_some_in in H as ([p|] & _ & H); [|discriminate].
  destruct (truthy (inl_data p)) as [data|] eqn:Et; [|discriminate]. injection H as <- <-.
  split; [exact (truthy_nonempty _ _ Et)|apply opt_or_nonempty; discriminate].
Qed.

Lemma fetchImagen_data_uri env i uri :
  fetchImagen env i = Ok uri -> exists m d, uri = data_uri m d /\ m <> [] /\ d <> [].
Proof.
  unfold fetchImagen. destruct (truthy (env_API_KEY env)); [|discriminate].
  destruct (fetch_predict env i) as [r|e]; cbn [bind]; [|discriminate].
  destruct (negb (ok r)); [discriminate|].
  destruct (body_predictions r) as [preds|e]; cbn [bind]; [|discriminate].
  destruct preds as [[|p ps]|]; try discriminate.
  assert (Hm : opt_or (pred_mimeType p) (js "image/png") <> []) by (apply opt_or_nonempty; discriminate).
  destruct (truthy (bytesBase64Encoded p)) eqn:E1;
    [|destruct (truthy (base64Data p)) eqn:E2; [|destruct (truthy (pred_data p)) eqn:E3]];
    intros H; try discriminate; injection H as <-; do 2 eexists; (split; [reflexivity|split; [exact Hm|]]);
    eapply truthy_nonempty; eassumption.
Qed.

Lemma hand_loop_data_uri env i n e uri :
  snd (hand_loop env i n e) = Ok uri -> exists m d, uri = data_uri m d /\ m <> [] /\ d <> [].
Proof.
  revert i e. induction n as [|n IH]; intros i e; simpl; [discriminate|].
  destruct (hand_attempt env i) as [ev r] eqn:Ea.
  destruct r as [u|e'].
  - simpl. intros H. injection H as <-. unfold hand_attempt in Ea.
    destruct (includes (toLowerCase (IMAGE_MODEL env)) (js "gemini")); injection Ea as _ Ea.
    + destruct (generateContent env i) as [resp|x]; cbn [bind] in Ea; [|discriminate].
      destruct (extractInlineImage resp) as [[data mimeType]|] eqn:Ex; [|discriminate].
      injection Ea as <-. destruct (extractInlineImage_nonempty _ _ _ Ex) as [Hd Hm].
      exists mimeType, data. auto.
    + exact (fetchImagen_data_uri env i u Ea).
  - destruct (hand_loop env (S i) n e') as [evs r'] eqn:El. simpl. intros H.
    apply (IH (S i) e'). rewrite El. exact H.
Qed.

(** X17. Whenever processHand succeeds, on either backend, it resolves to
    a data URI [data:<mimeType>;base64,<data>] with a non-empty MIME type
    (image/png by default) and non-empty data. *)
Theorem processHand_data_uri (env : ImageEnv) (uri : jsstring)
  (H : snd (processHand env) = Ok uri) :
  exists mimeType data, uri = data_uri mimeType data /\ mimeType <> [] /\ data <> [].
Proof. exact (hand_loop_data_uri env 0 maxRetries Undefined uri H). Qed.

Lemma processHand_data_uri_witness :
  exists mimeType data, data_uri (js "image/png") (js "AAAA") = data_uri mimeType data /\
                        mimeType <> [] /\ data <> [].
Proof. apply (processHand_data_uri sample_env_second). reflexivity. Defined.
